(** * Elmer writer for the Magnetodynamic2D equation

    A shallow embedding of [MgDyn2Dwriter]
    (src/Mod/Fem/femsolver/elmer/equations/magnetodynamic2D_writer.py)
    and the properties of its directive emission.

    Conventions of the embedding.
    - Python floats are modelled by rationals ([Q]): finite values only,
      no NaN, no infinities, no binary rounding.  [round] is the
      round-half-to-even of the Python builtin, on that idealised value.
    - The writer methods mutate the general writer ([self.write]).  Its
      mutable part is the [Sink]; a method is a function from a sink to a
      sink and an outcome.  A Python exception does not roll anything
      back, so the sink reached when an exception is raised is part of
      the outcome.
    - The read-only collaborators (document model, unit conversion,
      solver section factory) are fields of the [Writer] and [UnitsApi]
      records; their implementation is not part of this module. *)

From Stdlib Require Import ZArith QArith Ascii String.
Close Scope Q_scope.
From stdpp Require Import gmap strings list.

Open Scope string_scope.
Open Scope list_scope.

(** ** Numbers *)

(** Nearest integer of a rational, ties to the even neighbour. *)
Definition round_half_even (x : Q) : Z :=
  let n := Qnum x in
  let d := Zpos (Qden x) in
  let f := (n / d)%Z in
  let r := (n mod d)%Z in
  match (2 * r ?= d)%Z with
  | Lt => f
  | Gt => (f + 1)%Z
  | Eq => if Z.even f then f else (f + 1)%Z
  end.

(** Python's [round(x, ndigits)] for a float [x] and [ndigits >= 0], on
    the exact value: the decimal with [ndigits] decimals nearest to [x],
    ties to even.  Python returns the double nearest to that decimal;
    this last step is not modelled.  Whether the result is zero does
    not depend on it. *)
Definition pow10 (ndigits : nat) : positive :=
  match ndigits with
  | O => 1%positive
  | _ => Pos.pow 10 (Pos.of_nat ndigits)
  end.

Definition round (x : Q) (ndigits : nat) : Q :=
  Qred (round_half_even (Qmult x (Zpos (pow10 ndigits) # 1)) # pow10 ndigits).

(** Python's [x == 0.0] and [x == 0] on a float or a quantity value. *)
Definition is_zero (x : Q) : bool := Qeq_bool x 0.

(** ** Quantities (FreeCAD.Units) *)

Module Units.

Record Quantity := mkQuantity { Value : Q; Unit : string }.

End Units.

(** The part of [FreeCAD.Units] that the writer calls. *)
Record UnitsApi := {
  (** [q.getValueAs(unit)] *)
  getValueAs : Units.Quantity -> string -> Units.Quantity
}.

(** ** Solver input file attributes (sifio) *)

Module sifio.

Inductive Attr :=
| ABool (b : bool)
| ANum (x : Q)
| AStr (s : string)
| FileAttr (path : string).

(** A section of the solver input file, used as a dict:
    [s[key] = attr] overwrites. *)
Abbreviation SifSection := (gmap string Attr).

End sifio.
Import sifio.

(** ** Document objects *)

(** [obj.References]: a list of (object, sub-element names) links. *)
Abbreviation References_t := (list (string * list string)).

Module Equation.
Record t := {
  Name : string;
  IsHarmonic : bool;
  AngularFrequency : Units.Quantity;
  Stabilize : bool;
  CalculateCurrentDensity : bool;
  CalculateElectricField : bool;
  CalculateElementalFields : bool;
  CalculateHarmonicLoss : bool;
  CalculateJouleHeating : bool;
  CalculateMagneticFieldStrength : bool;
  CalculateMaxwellStress : bool;
  CalculateNodalFields : bool;
  CalculateNodalForces : bool;
  CalculateNodalHeating : bool
}.
End Equation.

(** App::MaterialObject.  [Material] is a dict from property names to
    their textual values. *)
Module MaterialObject.
Record t := {
  Name : string;
  Material : gmap string string;
  References : References_t
}.
End MaterialObject.

(** Fem::ConstraintCurrentDensity *)
Module ConstraintCurrentDensity.
Record t := {
  Name : string;
  References : References_t;
  CurrentDensity : Units.Quantity
}.
End ConstraintCurrentDensity.

(** Fem::ConstraintElectrostaticPotential.  [Potential] is [None] when
    the object has no such attribute ([hasattr] is false). *)
Module ConstraintElectrostaticPotential.
Record t := {
  Name : string;
  Label : string;
  References : References_t;
  PotentialEnabled : bool;
  Potential : option Units.Quantity;
  ElectricInfinity : bool
}.
End ConstraintElectrostaticPotential.

(** ** The general writer: read-only part *)

Record Writer := {
  (** [self.write.constsdef] *)
  constsdef : gmap string string;
  (** [self.write.convert(quantityStr, unit)] *)
  convert : string -> string -> Q;
  (** [self.write.getFromUi(value, unit, outputDim)] *)
  getFromUi : Units.Quantity -> string -> string -> Q;
  (** [self.write.getBodyMaterial(name)], [None] for Python's None *)
  getBodyMaterial : string -> option string;
  (** [self.write.getAllBodies()] *)
  getAllBodies : list string;
  (** [self.write.getMember("App::MaterialObject")] *)
  getMember_MaterialObject : list MaterialObject.t;
  (** [self.write.getMember("Fem::ConstraintCurrentDensity")] *)
  getMember_ConstraintCurrentDensity : list ConstraintCurrentDensity.t;
  (** [self.write.getMember("Fem::ConstraintElectrostaticPotential")] *)
  getMember_ConstraintElectrostaticPotential :
    list ConstraintElectrostaticPotential.t;
  (** [self.write.createNonlinearSolver(equation)] *)
  createNonlinearSolver : Equation.t -> SifSection
}.

(** ** The general writer: mutable part *)

Inductive Group := GConstant | GMaterial | GBodyForce | GBoundary | GEquation.

(** One call of a directive method of the writer:
    group, body it is keyed by, directive name, value. *)
Record Directive := mkDirective {
  d_group : Group;
  d_body : option string;
  d_name : string;
  d_value : Attr
}.

Record Sink := mkSink {
  (** the directive calls made so far, oldest first *)
  directives : list Directive;
  (** the objects marked by [handled], as the set of their document
      names (a document gives every object a name of its own) *)
  handledObjects : gset string;
  (** [Console.PrintMessage] calls: the material dicts printed *)
  console : list (gmap string string)
}.

(** ** Exceptions and the writer monad *)

Inductive exn :=
| WriteError (msg : string)
| KeyError (key : string)
| ValueError (arg : string).

Inductive outcome (A : Type) :=
| Return (a : A)
| Raise (e : exn).
Arguments Return {A} a.
Arguments Raise {A} e.

Definition M (A : Type) : Type := Sink -> outcome A * Sink.

Definition ret {A} (a : A) : M A := fun s => (Return a, s).

Definition raise {A} (e : exn) : M A := fun s => (Raise e, s).

Definition bind {A B} (m : M A) (k : A -> M B) : M B :=
  fun s =>
    match m s with
    | (Return a, s') => k a s'
    | (Raise e, s') => (Raise e, s')
    end.

Declare Scope writer_scope.
Delimit Scope writer_scope with writer.
Notation "x <- m ;; k" := (bind m (fun x => k))
  (at level 100, m at next level, right associativity) : writer_scope.
Notation "m ;; k" := (bind m (fun _ => k))
  (at level 100, right associativity) : writer_scope.
Open Scope writer_scope.

(** [for x in l: body(x)] *)
Fixpoint for_each {A} (l : list A) (body : A -> M unit) : M unit :=
  match l with
  | [] => ret tt
  | x :: l' => body x ;; for_each l' body
  end.

(** Modelled from the spec: the directive methods of the general writer
    ([constant], [material], [bodyForce], [boundary], [equation]) are
    defined outside this module.  The spec gives them as
    [write(group, key|null, directiveName, value)] on an ordered,
    append-only sink; the sink records every call, in order. *)
Definition emit (g : Group) (body : option string) (name : string)
    (v : Attr) : M unit :=
  fun s =>
    (Return tt,
     mkSink (directives s ++ [mkDirective g body name v])
            (handledObjects s) (console s)).

(** [self.write.constant(key, attr)] *)
Definition constant (key : string) (v : Attr) : M unit :=
  emit GConstant None key v.
(** [self.write.material(body, key, attr)] *)
Definition material (body key : string) (v : Attr) : M unit :=
  emit GMaterial (Some body) key v.
(** [self.write.bodyForce(body, key, attr)] *)
Definition bodyForce (body key : string) (v : Attr) : M unit :=
  emit GBodyForce (Some body) key v.
(** [self.write.boundary(body, key, attr)] *)
Definition boundary (body key : string) (v : Attr) : M unit :=
  emit GBoundary (Some body) key v.
(** [self.write.equation(body, key, attr)] *)
Definition equation (body key : string) (v : Attr) : M unit :=
  emit GEquation (Some body) key v.

(** Modelled from the spec: [self.write.handled(obj)] (markHandled) is
    defined in the general writer, outside this module.  The spec: it
    tells the orchestrator that the constraint has been consumed, and
    consuming twice is not an error. *)
Definition handled (objName : string) : M unit :=
  fun s =>
    (Return tt,
     mkSink (directives s) ({[objName]} ∪ handledObjects s) (console s)).

(** [Console.PrintMessage("m: {}\n".format(m))] *)
Definition PrintMessage (m : gmap string string) : M unit :=
  fun s =>
    (Return tt, mkSink (directives s) (handledObjects s) (console s ++ [m])).

(** [d[key]] on a dict *)
Definition getitem (d : gmap string string) (key : string) : M string :=
  match d !! key with
  | Some v => ret v
  | None => raise (KeyError key)
  end.

(** The line feed of the messages. *)
Definition LF : string := String "010"%char "".

(** ** Messages of the [WriteError]s *)

Definition msg_body_without_material (name : string) : string :=
  "The body " +:+ name +:+ " is not referenced in any material." +:+ LF +:+ LF.

Definition msg_electrical_conductivity : string :=
  "The electrical conductivity must be specified for all materials."
  +:+ LF +:+ LF.

Definition msg_relative_permeability : string :=
  "The relative permeability must be specified for all materials."
  +:+ LF +:+ LF.

Definition msg_zero_current_density : string :=
  "The current density must not be zero!".

Definition msg_no_current_density : string :=
  "The Magnetodynamic2D equation needs at least one CurrentDensity constraint.".

Definition msg_several_without_reference : string :=
  "Several current density constraints found without reference to a body."
  +:+ LF +:+ "Please set a body for each current density constraint.".

Definition msg_zero_angular_frequency : string :=
  "The angular frequency must not be zero." +:+ LF +:+ LF.

(** ** The class [MgDyn2Dwriter] *)

Section MgDyn2Dwriter.

(** [self.write] (its read-only part) and the [Units] module. *)
Variable write : Writer.
Variable units : UnitsApi.
(** Python's [float(s)] on a str; [None] where it raises ValueError. *)
Variable float : string -> option Q.

Definition float_of_str (s : string) : M Q :=
  match float s with
  | Some x => ret x
  | None => raise (ValueError s)
  end.

Definition getMagnetodynamic2DSolver (equation : Equation.t) : SifSection :=
  let s := createNonlinearSolver write equation in
  let s :=
    if negb (Equation.IsHarmonic equation) then
      let s := <["Equation" := AStr "MgDyn2D"]> s in
      let s := <["Procedure" :=
                  FileAttr "MagnetoDynamics2D/MagnetoDynamics2D"]> s in
      <["Variable" := AStr "Potential"]> s
    else
      let s := <["Equation" := AStr "MgDyn2DHarmonic"]> s in
      let s := <["Procedure" :=
                  FileAttr "MagnetoDynamics2D/MagnetoDynamics2DHarmonic"]> s in
      <["Variable" := AStr "Potential[Potential Re:1 Potential Im:1]"]> s in
  let s := <["Exec Solver" := AStr "Always"]> s in
  let s := <["Optimize Bandwidth" := ABool true]> s in
  let s := <["Stabilize" := ABool (Equation.Stabilize equation)]> s in
  s.

Definition getMagnetodynamic2DSolverPost (equation : Equation.t)
    : SifSection :=
  let s := createNonlinearSolver write equation in
  let s := <["Equation" := AStr "MgDyn2DPost"]> s in
  let s := <["Exec Solver" := AStr "Always"]> s in
  let s := <["Procedure" :=
              FileAttr "MagnetoDynamics/MagnetoDynamicsCalcFields"]> s in
  let s :=
    if Equation.IsHarmonic equation then
      <["Angular Frequency" :=
         ANum (Units.Value (Equation.AngularFrequency equation))]> s
    else s in
  let s := <["Potential Variable" := AStr "Potential"]> s in
  let s :=
    if Equation.CalculateCurrentDensity equation
    then <["Calculate Current Density" := ABool true]> s else s in
  let s :=
    if Equation.CalculateElectricField equation
    then <["Calculate Electric Field" := ABool true]> s else s in
  let s :=
    if negb (Equation.CalculateElementalFields equation)
    then <["Calculate Elemental Fields" := ABool false]> s else s in
  let s :=
    if Equation.CalculateHarmonicLoss equation
    then <["Calculate Harmonic Loss" := ABool true]> s else s in
  let s :=
    if Equation.CalculateJouleHeating equation
    then <["Calculate Joule Heating" := ABool true]> s else s in
  let s :=
    if Equation.CalculateMagneticFieldStrength equation
    then <["Calculate Magnetic Field Strength" := ABool true]> s else s in
  let s :=
    if Equation.CalculateMaxwellStress equation
    then <["Calculate Maxwell Stress" := ABool true]> s else s in
  let s :=
    if negb (Equation.CalculateNodalFields equation)
    then <["Calculate Nodal Fields" := ABool false]> s else s in
  let s :=
    if Equation.CalculateNodalForces equation
    then <["Calculate Nodal Forces" := ABool true]> s else s in
  let s :=
    if Equation.CalculateNodalHeating equation
    then <["Calculate Nodal Heating" := ABool true]> s else s in
  let s := <["Optimize Bandwidth" := ABool true]> s in
  let s := <["Stabilize" := ABool (Equation.Stabilize equation)]> s in
  s.

Definition handleMagnetodynamic2DConstants : M unit :=
  c <- getitem (constsdef write) "PermeabilityOfVacuum" ;;
  let permeability := convert write c "M*L/(T^2*I^2)" in
  let permeability := round permeability 20 in
  constant "Permeability Of Vacuum" (ANum permeability) ;;
  c <- getitem (constsdef write) "PermittivityOfVacuum" ;;
  let permittivity := convert write c "T^4*I^2/(L^3*M)" in
  let permittivity := round permittivity 20 in
  constant "Permittivity Of Vacuum" (ANum permittivity).

(** [obj.References[0][1] if obj.References else self.write.getAllBodies()] *)
Definition material_refs (obj : MaterialObject.t) : list string :=
  match MaterialObject.References obj with
  | (_, names) :: _ => names
  | [] => getAllBodies write
  end.

(** The body of the inner loop of [handleMagnetodynamic2DMaterial]. *)
Definition material_of_body (m : gmap string string) (name : string)
    : M unit :=
  (if bool_decide (m !! "ElectricalConductivity" = None) then
     PrintMessage m ;;
     raise (WriteError msg_electrical_conductivity)
   else ret tt) ;;
  (if bool_decide (m !! "RelativePermeability" = None) then
     PrintMessage m ;;
     raise (WriteError msg_relative_permeability)
   else ret tt) ;;
  n <- getitem m "Name" ;;
  material name "Name" (AStr n) ;;
  c <- getitem m "ElectricalConductivity" ;;
  let conductivity := convert write c "T^3*I^2/(L^3*M)" in
  let conductivity := round conductivity 10 in
  material name "Electric Conductivity" (ANum conductivity) ;;
  p <- getitem m "RelativePermeability" ;;
  p <- float_of_str p ;;
  material name "Relative Permeability" (ANum p) ;;
  if bool_decide (m !! "RelativePermittivity" = None) then ret tt
  else
    e <- getitem m "RelativePermittivity" ;;
    e <- float_of_str e ;;
    material name "Relative Permittivity" (ANum e).

(** The body of the first loop of [handleMagnetodynamic2DMaterial]. *)
Definition check_body_material (name : string) : M unit :=
  match getBodyMaterial write name with
  | None => raise (WriteError (msg_body_without_material name))
  | Some _ => ret tt
  end.

(** The body of its second loop. *)
Definition material_of_object (bodies : list string)
    (obj : MaterialObject.t) : M unit :=
  let m := MaterialObject.Material obj in
  let refs := material_refs obj in
  for_each (filter (fun n => n ∈ bodies) refs) (fun name =>
    material_of_body m name).

Definition handleMagnetodynamic2DMaterial (bodies : list string) : M unit :=
  for_each bodies check_body_material ;;
  for_each (getMember_MaterialObject write) (material_of_object bodies).

Definition _outputMagnetodynamic2DBodyForce
    (obj : ConstraintCurrentDensity.t) (name : string) : M unit :=
  let currentDensity :=
    getFromUi write
      (getValueAs units (ConstraintCurrentDensity.CurrentDensity obj) "A/m^2")
      "A/m^2" "I/L^2" in
  let currentDensity := round currentDensity 10 in
  if is_zero currentDensity then
    raise (WriteError msg_zero_current_density)
  else
    bodyForce name "Current Density" (ANum currentDensity).

(** The body of the loop of [handleMagnetodynamic2DBodyForces];
    [n] is [len(currentDensities)]. *)
Definition bodyForces_of_constraint (n : nat) (bodies : list string)
    (obj : ConstraintCurrentDensity.t) : M unit :=
  match ConstraintCurrentDensity.References obj with
  | (_, names) :: _ =>
      for_each names (fun name =>
        _outputMagnetodynamic2DBodyForce obj name) ;;
      handled (ConstraintCurrentDensity.Name obj)
  | [] =>
      if (n =? 1)%nat then
        for_each bodies (fun name =>
          _outputMagnetodynamic2DBodyForce obj name)
      else
        raise (WriteError msg_several_without_reference)
  end ;;
  handled (ConstraintCurrentDensity.Name obj).

Definition handleMagnetodynamic2DBodyForces (bodies : list string)
    : M unit :=
  let currentDensities := getMember_ConstraintCurrentDensity write in
  if (length currentDensities =? 0)%nat then
    raise (WriteError msg_no_current_density)
  else
    for_each currentDensities
      (bodyForces_of_constraint (length currentDensities) bodies).

(** The body of the inner loop of [handleMagnetodynamic2DBndConditions]. *)
Definition bndCondition_of_body (obj : ConstraintElectrostaticPotential.t)
    (name : string) : M unit :=
  (if bool_decide (ConstraintElectrostaticPotential.Label obj = "") then
     ret tt
   else
     boundary name "! FreeCAD Name"
       (AStr (ConstraintElectrostaticPotential.Label obj))) ;;
  (if ConstraintElectrostaticPotential.PotentialEnabled obj then
     match ConstraintElectrostaticPotential.Potential obj with
     | Some q =>
         let potential := Units.Value (getValueAs units q "V") in
         boundary name "Potential" (ANum potential)
     | None => ret tt
     end
   else ret tt) ;;
  (if ConstraintElectrostaticPotential.ElectricInfinity obj then
     boundary name "Infinity BC" (ABool true)
   else ret tt).

(** The body of its outer loop. *)
Definition bndConditions_of_constraint
    (obj : ConstraintElectrostaticPotential.t) : M unit :=
  match ConstraintElectrostaticPotential.References obj with
  | (_, names) :: _ =>
      for_each names (fun name => bndCondition_of_body obj name) ;;
      handled (ConstraintElectrostaticPotential.Name obj)
  | [] => ret tt
  end.

Definition handleMagnetodynamic2DBndConditions : M unit :=
  for_each (getMember_ConstraintElectrostaticPotential write)
    bndConditions_of_constraint.

(** The body of the loop of [handleMagnetodynamic2DEquation]. *)
Definition equation_of_body (eq : Equation.t) (b : string) : M unit :=
  (if Equation.IsHarmonic eq
      && is_zero (Units.Value (Equation.AngularFrequency eq))
   then raise (WriteError msg_zero_angular_frequency)
   else ret tt) ;;
  equation b "Name" (AStr (Equation.Name eq)) ;;
  let frequency := Units.Value (Equation.AngularFrequency eq) in
  equation b "Angular Frequency" (ANum frequency).

Definition handleMagnetodynamic2DEquation (bodies : list string)
    (eq : Equation.t) : M unit :=
  for_each bodies (equation_of_body eq).

End MgDyn2Dwriter.

(** ** Closed forms of what the methods write

    The definitions below do not come from the source: they describe the
    directives a method is expected to add, and the theorems compare
    them with the methods above. *)

(** The sink after the calls [ds] have been made on it. *)
Definition add_directives (ds : list Directive) (s : Sink) : Sink :=
  mkSink (directives s ++ ds) (handledObjects s) (console s).

(** The sink after the objects [names] have been marked handled. *)
Definition add_handled (names : gset string) (s : Sink) : Sink :=
  mkSink (directives s) (names ∪ handledObjects s) (console s).

Definition bodyForce_directive (r : Q) (name : string) : Directive :=
  mkDirective GBodyForce (Some name) "Current Density" (ANum r).

(** The magnitude a current density constraint is emitted with. *)
Definition rounded_magnitude (write : Writer) (units : UnitsApi)
    (obj : ConstraintCurrentDensity.t) : Q :=
  round
    (getFromUi write
       (getValueAs units (ConstraintCurrentDensity.CurrentDensity obj) "A/m^2")
       "A/m^2" "I/L^2")
    10.

Definition equation_directives (eq : Equation.t) (b : string)
    : list Directive :=
  [ mkDirective GEquation (Some b) "Name" (AStr (Equation.Name eq));
    mkDirective GEquation (Some b) "Angular Frequency"
      (ANum (Units.Value (Equation.AngularFrequency eq))) ].

(** The pairs (material, body) that [handleMagnetodynamic2DMaterial]
    visits, in the order of its two nested loops: for every material
    object, the bodies of its references, or all bodies of the model
    when it has none, that are in [bodies]. *)
Definition material_pairs (write : Writer) (bodies : list string)
    : list (gmap string string * string) :=
  flat_map
    (fun obj =>
       map (fun name => (MaterialObject.Material obj, name))
           (filter (fun n => n ∈ bodies) (material_refs write obj)))
    (getMember_MaterialObject write).

(** The directives of a material with name [n], conductivity text [c],
    relative permeability [p] and relative permittivity [e], if any. *)
Definition material_directives (write : Writer) (name n c : string)
    (p : Q) (e : option Q) : list Directive :=
  [ mkDirective GMaterial (Some name) "Name" (AStr n);
    mkDirective GMaterial (Some name) "Electric Conductivity"
      (ANum (round (convert write c "T^3*I^2/(L^3*M)") 10));
    mkDirective GMaterial (Some name) "Relative Permeability" (ANum p) ]
  ++ match e with
     | Some x =>
         [mkDirective GMaterial (Some name) "Relative Permittivity" (ANum x)]
     | None => []
     end.

(** The sink after the material dict [m] has been printed. *)
Definition add_console (m : gmap string string) (s : Sink) : Sink :=
  mkSink (directives s) (handledObjects s) (console s ++ [m]).

(** The directives of a potential constraint for one of its bodies. *)
Definition boundary_directives (units : UnitsApi)
    (obj : ConstraintElectrostaticPotential.t) (name : string)
    : list Directive :=
  (if bool_decide (ConstraintElectrostaticPotential.Label obj = "") then []
   else [mkDirective GBoundary (Some name) "! FreeCAD Name"
           (AStr (ConstraintElectrostaticPotential.Label obj))])
  ++ (match ConstraintElectrostaticPotential.PotentialEnabled obj,
            ConstraintElectrostaticPotential.Potential obj with
      | true, Some q =>
          [mkDirective GBoundary (Some name) "Potential"
             (ANum (Units.Value (getValueAs units q "V")))]
      | _, _ => []
      end)
  ++ (if ConstraintElectrostaticPotential.ElectricInfinity obj
      then [mkDirective GBoundary (Some name) "Infinity BC" (ABool true)]
      else []).

(** The directives of a potential constraint: those of the bodies of
    its first reference, none when it has no reference. *)
Definition boundary_directives_of_constraint (units : UnitsApi)
    (obj : ConstraintElectrostaticPotential.t) : list Directive :=
  match ConstraintElectrostaticPotential.References obj with
  | (_, names) :: _ => flat_map (boundary_directives units obj) names
  | [] => []
  end.

(** The mark a potential constraint leaves: none without reference. *)
Definition boundary_marks (obj : ConstraintElectrostaticPotential.t)
    : gset string :=
  match ConstraintElectrostaticPotential.References obj with
  | _ :: _ => {[ConstraintElectrostaticPotential.Name obj]}
  | [] => ∅
  end.

(** ** What a method may change

    [sink_grows P H C s s']: the sink [s'] is the sink [s] with
    directives that satisfy [P] written after those of [s], objects of
    [H] marked handled and material dicts that satisfy [C] printed. *)
Definition sink_grows (P : Directive -> Prop) (H : gset string)
    (C : gmap string string -> Prop) (s s' : Sink) : Prop :=
  (exists ds, directives s' = directives s ++ ds /\ Forall P ds)
  /\ handledObjects s ⊆ handledObjects s'
  /\ handledObjects s' ⊆ handledObjects s ∪ H
  /\ (exists ms, console s' = console s ++ ms /\ Forall C ms).

(** A computation that changes the sink in that way only, whether it
    returns or raises. *)
Definition only_adds {A} (P : Directive -> Prop) (H : gset string)
    (C : gmap string string -> Prop) (m : M A) : Prop :=
  forall s, sink_grows P H C s (m s).2.

(** A [Current Density] body force with a non-zero value. *)
Definition is_current_density (d : Directive) : Prop :=
  d_group d = GBodyForce
  /\ is_Some (d_body d)
  /\ d_name d = "Current Density"
  /\ exists r, d_value d = ANum r /\ ~ (r == 0)%Q.

(** The document names of the current density constraints. *)
Definition currentDensity_names (write : Writer) : gset string :=
  list_to_set
    (map ConstraintCurrentDensity.Name
       (getMember_ConstraintCurrentDensity write)).

(** The bodies a current density constraint with references is
    written for: the names of its first reference. *)
Definition referenced_bodies (obj : ConstraintCurrentDensity.t)
    : list string :=
  match ConstraintCurrentDensity.References obj with
  | (_, names) :: _ => names
  | [] => []
  end.

(** A table of guarded assignments [if c: s[key] = attr], applied to a
    section from the first row to the last. *)
Definition apply_updates (us : list (bool * string * Attr))
    (s : SifSection) : SifSection :=
  fold_left
    (fun (s : SifSection) (u : bool * string * Attr) =>
       if u.1.1 then <[u.1.2 := u.2]> s else s) us s.

(** What the table leaves under [key], when [d] was there before. *)
Fixpoint updates_lookup (key : string) (us : list (bool * string * Attr))
    (d : option Attr) : option Attr :=
  match us with
  | [] => d
  | u :: us' =>
      updates_lookup key us'
        (if bool_decide (u.1.2 = key)
         then (if u.1.1 then Some u.2 else d)
         else d)
  end.

(** The assignments of [getMagnetodynamic2DSolverPost], in its order. *)
Definition post_solver_updates (eq : Equation.t)
    : list (bool * string * Attr) :=
  [ (true, "Equation", AStr "MgDyn2DPost");
    (true, "Exec Solver", AStr "Always");
    (true, "Procedure",
     FileAttr "MagnetoDynamics/MagnetoDynamicsCalcFields");
    (Equation.IsHarmonic eq, "Angular Frequency",
     ANum (Units.Value (Equation.AngularFrequency eq)));
    (true, "Potential Variable", AStr "Potential");
    (Equation.CalculateCurrentDensity eq, "Calculate Current Density",
     ABool true);
    (Equation.CalculateElectricField eq, "Calculate Electric Field",
     ABool true);
    (negb (Equation.CalculateElementalFields eq),
     "Calculate Elemental Fields", ABool false);
    (Equation.CalculateHarmonicLoss eq, "Calculate Harmonic Loss",
     ABool true);
    (Equation.CalculateJouleHeating eq, "Calculate Joule Heating",
     ABool true);
    (Equation.CalculateMagneticFieldStrength eq,
     "Calculate Magnetic Field Strength", ABool true);
    (Equation.CalculateMaxwellStress eq, "Calculate Maxwell Stress",
     ABool true);
    (negb (Equation.CalculateNodalFields eq), "Calculate Nodal Fields",
     ABool false);
    (Equation.CalculateNodalForces eq, "Calculate Nodal Forces",
     ABool true);
    (Equation.CalculateNodalHeating eq, "Calculate Nodal Heating",
     ABool true);
    (true, "Optimize Bandwidth", ABool true);
    (true, "Stabilize", ABool (Equation.Stabilize eq)) ].

(** The assignments of [getMagnetodynamic2DSolver], in its order. *)
Definition primary_solver_updates (eq : Equation.t)
    : list (bool * string * Attr) :=
  [ (true, "Equation",
     AStr (if Equation.IsHarmonic eq then "MgDyn2DHarmonic" else "MgDyn2D"));
    (true, "Procedure",
     FileAttr (if Equation.IsHarmonic eq
               then "MagnetoDynamics2D/MagnetoDynamics2DHarmonic"
               else "MagnetoDynamics2D/MagnetoDynamics2D"));
    (true, "Variable",
     AStr (if Equation.IsHarmonic eq
           then "Potential[Potential Re:1 Potential Im:1]"
           else "Potential"));
    (true, "Exec Solver", AStr "Always");
    (true, "Optimize Bandwidth", ABool true);
    (true, "Stabilize", ABool (Equation.Stabilize eq)) ].

(** The keys that [getMagnetodynamic2DSolver] assigns. *)
Definition primary_solver_keys : list string :=
  [ "Equation"; "Procedure"; "Variable"; "Exec Solver";
    "Optimize Bandwidth"; "Stabilize" ].

(** The keys that [getMagnetodynamic2DSolverPost] may assign. *)
Definition post_solver_keys : list string :=
  [ "Equation"; "Exec Solver"; "Procedure"; "Angular Frequency";
    "Potential Variable"; "Calculate Current Density";
    "Calculate Electric Field"; "Calculate Elemental Fields";
    "Calculate Harmonic Loss"; "Calculate Joule Heating";
    "Calculate Magnetic Field Strength"; "Calculate Maxwell Stress";
    "Calculate Nodal Fields"; "Calculate Nodal Forces";
    "Calculate Nodal Heating"; "Optimize Bandwidth"; "Stabilize" ].

(** A directive of the material section of one of [bodies]. *)
Definition is_material_directive (bodies : list string) (d : Directive)
    : Prop :=
  d_group d = GMaterial
  /\ (exists b, d_body d = Some b /\ b ∈ bodies)
  /\ d_name d ∈ [ "Name"; "Electric Conductivity"; "Relative Permeability";
                  "Relative Permittivity" ].

(** A material dict of the model without one of the two properties the
    equation requires. *)
Definition is_incomplete_material (write : Writer) (m : gmap string string)
    : Prop :=
  (exists obj,
      obj ∈ getMember_MaterialObject write
      /\ m = MaterialObject.Material obj)
  /\ (m !! "ElectricalConductivity" = None
      \/ m !! "RelativePermeability" = None).

(** A material dict the method can write: the two required
    properties and a name are there, and the relative permeability and
    the relative permittivity, if any, are numerals. *)
Definition is_writable_material (float : string -> option Q)
    (m : gmap string string) : Prop :=
  is_Some (m !! "Name")
  /\ is_Some (m !! "ElectricalConductivity")
  /\ (exists p, m !! "RelativePermeability" = Some p /\ is_Some (float p))
  /\ (forall e, m !! "RelativePermittivity" = Some e -> is_Some (float e)).

(** The directives of a writable material dict for a body. *)
Definition directives_of_material (write : Writer)
    (float : string -> option Q) (m : gmap string string) (name : string)
    : list Directive :=
  match m !! "Name", m !! "ElectricalConductivity",
        m !! "RelativePermeability" ≫= float with
  | Some n, Some c, Some pv =>
      material_directives write name n c pv
        (m !! "RelativePermittivity" ≫= float)
  | _, _, _ => []
  end.

(** ** Sample models

    Small concrete collaborators and documents, on which the methods
    can be evaluated. *)

Module Sample.

(** A unit store that hands every quantity back unchanged. *)
Definition units : UnitsApi := {| getValueAs := fun q _ => q |}.

Definition quantity (x : Q) (u : string) : Units.Quantity :=
  Units.mkQuantity x u.

(** Numerals of the sample material cards. *)
Definition float (s : string) : option Q :=
  if bool_decide (s = "1") then Some 1%Q
  else if bool_decide (s = "2.5") then Some (5 # 2)%Q
  else None.

Definition currentDensity (name : string) (refs : References_t) (x : Q)
    : ConstraintCurrentDensity.t :=
  {| ConstraintCurrentDensity.Name := name;
     ConstraintCurrentDensity.References := refs;
     ConstraintCurrentDensity.CurrentDensity := quantity x "A/m^2" |}.

Definition copper : gmap string string :=
  <["Name" := "Copper"]>
    (<["ElectricalConductivity" := "59.59 MS/m"]>
       (<["RelativePermeability" := "1"]> ∅)).

Definition air : gmap string string :=
  <["Name" := "Air"]>
    (<["ElectricalConductivity" := "0 S/m"]>
       (<["RelativePermeability" := "1"]>
          (<["RelativePermittivity" := "1"]> ∅))).

Definition materialObject (name : string) (m : gmap string string)
    (refs : References_t) : MaterialObject.t :=
  {| MaterialObject.Name := name;
     MaterialObject.Material := m;
     MaterialObject.References := refs |}.

Definition potential (name label : string) (refs : References_t)
    (enabled : bool) (v : option Q) (infinity : bool)
    : ConstraintElectrostaticPotential.t :=
  {| ConstraintElectrostaticPotential.Name := name;
     ConstraintElectrostaticPotential.Label := label;
     ConstraintElectrostaticPotential.References := refs;
     ConstraintElectrostaticPotential.PotentialEnabled := enabled;
     ConstraintElectrostaticPotential.Potential :=
       match v with Some x => Some (quantity x "V") | None => None end;
     ConstraintElectrostaticPotential.ElectricInfinity := infinity |}.

(** A writer over a model with bodies A, B, C, of which C has no
    material when [c_has_material] is false. *)
Definition writer (c_has_material : bool)
    (materials : list MaterialObject.t)
    (currentDensities : list ConstraintCurrentDensity.t)
    (potentials : list ConstraintElectrostaticPotential.t) : Writer :=
  {| constsdef := ∅;
     convert := fun _ _ => (5959 # 100)%Q;
     getFromUi := fun q _ _ => Units.Value q;
     getBodyMaterial := fun b =>
       if bool_decide (b = "C") && negb c_has_material then None
       else Some "Material";
     getAllBodies := ["A"; "B"; "C"];
     getMember_MaterialObject := materials;
     getMember_ConstraintCurrentDensity := currentDensities;
     getMember_ConstraintElectrostaticPotential := potentials;
     createNonlinearSolver := fun _ =>
       <["Linear System Solver" := AStr "Iterative"]> ∅ |}.

Definition equation (harmonic : bool) (frequency : Q)
    (elementalFields currentDensity : bool) : Equation.t :=
  {| Equation.Name := "Magnetodynamic2D";
     Equation.IsHarmonic := harmonic;
     Equation.AngularFrequency := quantity frequency "1/s";
     Equation.Stabilize := true;
     Equation.CalculateCurrentDensity := currentDensity;
     Equation.CalculateElectricField := false;
     Equation.CalculateElementalFields := elementalFields;
     Equation.CalculateHarmonicLoss := false;
     Equation.CalculateJouleHeating := false;
     Equation.CalculateMagneticFieldStrength := false;
     Equation.CalculateMaxwellStress := false;
     Equation.CalculateNodalFields := true;
     Equation.CalculateNodalForces := false;
     Equation.CalculateNodalHeating := false |}.

Definition sink : Sink := mkSink [] ∅ [].

(** A writer that only knows the two constants of vacuum. *)
Definition writer_of_constants : Writer :=
  {| constsdef :=
       <["PermeabilityOfVacuum" := "1.25663706212e-6 kg*m/(s^2*A^2)"]>
         (<["PermittivityOfVacuum" := "8.8541878128e-12 s^4*A^2/(m^3*kg)"]>
            ∅);
     convert := fun q _ =>
       if bool_decide (q = "1.25663706212e-6 kg*m/(s^2*A^2)")
       then (125663706212 # 100000000000000000)%Q
       else (88541878128 # 10000000000000000000000)%Q;
     getFromUi := fun q _ _ => Units.Value q;
     getBodyMaterial := fun _ => None;
     getAllBodies := [];
     getMember_MaterialObject := [];
     getMember_ConstraintCurrentDensity := [];
     getMember_ConstraintElectrostaticPotential := [];
     createNonlinearSolver := fun _ => ∅ |}.

End Sample.

(** * Properties *)

(** ** Rounding *)

Lemma round_half_even_zero (x : Q) :
  round_half_even x = 0%Z <->
  (- Zpos (Qden x) <= 2 * Qnum x <= Zpos (Qden x))%Z.
Proof.
  unfold round_half_even.
  set (n := Qnum x). set (d := Zpos (Qden x)).
  assert (Hd : (0 < d)%Z) by (subst d; lia).
  pose proof (Z.div_mod n d ltac:(lia)) as Hn.
  pose proof (Z.mod_pos_bound n d Hd) as Hr.
  set (f := (n / d)%Z) in *. set (r := (n mod d)%Z) in *.
  destruct (Z.compare_spec (2 * r) d) as [He|Hl|Hg].
  - destruct (Z.even f) eqn:Hf.
    + split; [intros ->; nia|]. intros [H1 H2].
      assert (f = 0 \/ f = -1)%Z as [->| ->] by nia;
        [reflexivity|discriminate].
    + split; [intros ?; nia|]. intros [H1 H2].
      assert (f = 0 \/ f = -1)%Z as [->| ->] by nia;
        [discriminate|reflexivity].
  - split; [intros ?; nia|]. intros [H1 H2]. nia.
  - split; [intros ?; nia|]. intros [H1 H2]. nia.
Qed.

Lemma Qred_zero (z : Z) (d : positive) : Qred (z # d) = 0%Q <-> z = 0%Z.
Proof.
  split.
  - intros H.
    assert (Hq : (z # d == 0)%Q).
    { rewrite <- (Qred_correct (z # d)), H. reflexivity. }
    unfold Qeq in Hq. simpl in Hq. lia.
  - intros ->. apply (Qred_complete (0 # d) 0). unfold Qeq. simpl. reflexivity.
Qed.

(** The zero test on a rounded value decides equality with [0]. *)
Lemma is_zero_round (x : Q) (n : nat) :
  is_zero (round x n) = true <-> round x n = 0%Q.
Proof.
  unfold is_zero, round. rewrite Qeq_bool_iff. split.
  - intros H. rewrite Qred_correct in H. apply (Qred_complete _ 0 H).
  - intros ->. reflexivity.
Qed.

(** A value rounds to zero exactly when it is at most half a unit of
    the last kept decimal away from zero. *)
Lemma round_zero_iff (x : Q) (n : nat) :
  round x n = 0%Q <->
  (- (1 # 2) <= x * (Zpos (pow10 n) # 1) /\
   x * (Zpos (pow10 n) # 1) <= 1 # 2)%Q.
Proof.
  unfold round. rewrite Qred_zero, round_half_even_zero.
  set (y := (x * (Zpos (pow10 n) # 1))%Q).
  unfold Qle. generalize (Qnum y) (Qden y). intros a b.
  cbn [Qnum Qden Qopp Z.opp]. lia.
Qed.

Lemma round_tiny_is_zero (x : Q) :
  (x == 1 # 1000000000000)%Q -> round x 10 = 0%Q.
Proof.
  intros Hx. apply round_zero_iff. rewrite Hx. split; vm_compute; discriminate.
Qed.

(** ** The writer monad *)

Lemma add_directives_nil (s : Sink) : add_directives [] s = s.
Proof. destruct s. unfold add_directives. simpl. by rewrite app_nil_r. Qed.

Lemma add_directives_app (ds1 ds2 : list Directive) (s : Sink) :
  add_directives ds2 (add_directives ds1 s) = add_directives (ds1 ++ ds2) s.
Proof. unfold add_directives. simpl. by rewrite app_assoc. Qed.

Lemma emit_spec g body name v s :
  emit g body name v s =
  (Return tt, add_directives [mkDirective g body name v] s).
Proof. reflexivity. Qed.

Lemma bind_Return {A B} (m : M A) (k : A -> M B) s a s' :
  m s = (Return a, s') -> (x <- m ;; k x) s = k a s'.
Proof. unfold bind. by intros ->. Qed.

Lemma bind_Raise {A B} (m : M A) (k : A -> M B) s e s' :
  m s = (Raise e, s') -> (x <- m ;; k x) s = (Raise e, s').
Proof. unfold bind. by intros ->. Qed.

(** A loop over a concatenation runs the loop over the first part and,
    unless that raised, the loop over the second part. *)
Lemma for_each_app {A} (l1 l2 : list A) (body : A -> M unit) s :
  for_each (l1 ++ l2) body s = (for_each l1 body ;; for_each l2 body) s.
Proof.
  revert s. induction l1 as [|x l1 IH]; intros s; simpl.
  - reflexivity.
  - unfold bind in *. destruct (body x s) as [[[]|e] s1]; [|reflexivity].
    apply IH.
Qed.

(** A loop whose body only adds directives adds them body after body. *)
Lemma for_each_emits {A} (body : A -> M unit) (g : A -> list Directive) :
  (forall x s, body x s = (Return tt, add_directives (g x) s)) ->
  forall l s,
    for_each l body s = (Return tt, add_directives (flat_map g l) s).
Proof.
  intros Hbody l. induction l as [|x l IH]; intros s; simpl.
  - by rewrite add_directives_nil.
  - rewrite (bind_Return _ _ _ _ _ (Hbody x s)), IH.
    by rewrite add_directives_app.
Qed.

Lemma flat_map_singleton {A B} (g : A -> B) (l : list A) :
  flat_map (fun x => [g x]) l = map g l.
Proof. induction l as [|x l IH]; simpl; by f_equal. Qed.

(** A loop whose body raises without touching the sink stops at the
    first element. *)
Lemma for_each_raises {A} (body : A -> M unit) e x l s :
  body x s = (Raise e, s) -> for_each (x :: l) body s = (Raise e, s).
Proof. intros H. simpl. by rewrite (bind_Raise _ _ _ _ _ H). Qed.

(** A loop that returns has run its body on every element, and what a
    body establishes for its element is kept when later bodies keep it. *)
Lemma for_each_Return_all {A} (body : A -> M unit) (P : A -> Sink -> Prop) :
  (forall x s s', body x s = (Return tt, s') -> P x s') ->
  (forall x y s s', P x s -> body y s = (Return tt, s') -> P x s') ->
  forall l s s',
    for_each l body s = (Return tt, s') -> forall x, x ∈ l -> P x s'.
Proof.
  intros Hest Hkeep l. induction l as [|y l IH]; intros s s' Hrun x Hx.
  - by apply not_elem_of_nil in Hx.
  - simpl in Hrun. unfold bind in Hrun.
    destruct (body y s) as [[[]|e] s1] eqn:Hy; [|discriminate].
    apply elem_of_cons in Hx as [->|Hx]; [|by eapply IH].
    apply Hest in Hy. clear IH. revert s1 Hy Hrun.
    induction l as [|z l IHl]; intros s1 Hy Hrun; simpl in Hrun.
    + by inversion Hrun; subst.
    + unfold bind in Hrun.
      destruct (body z s1) as [[[]|e] s2] eqn:Hz; [|discriminate].
      eapply IHl; [|exact Hrun]. by eapply Hkeep.
Qed.

(** An exception of a loop is an exception of one of its bodies. *)
Lemma for_each_Raise_inv {A} (body : A -> M unit) l s e s' :
  for_each l body s = (Raise e, s') ->
  exists x s0, x ∈ l /\ body x s0 = (Raise e, s').
Proof.
  revert s. induction l as [|y l IH]; intros s Hrun; simpl in Hrun.
  - discriminate.
  - unfold bind in Hrun. destruct (body y s) as [[[]|e1] s1] eqn:Hy.
    + destruct (IH _ Hrun) as (x & s0 & Hx & Hb).
      exists x, s0. split; [by apply elem_of_cons; right|done].
    + inversion Hrun; subst. exists y, s.
      split; [by apply elem_of_cons; left|done].
Qed.

(** ** Body forces *)

Section BodyForces.

Variable write : Writer.
Variable units : UnitsApi.

Local Abbreviation output := (_outputMagnetodynamic2DBodyForce write units).
Local Abbreviation magnitude_of obj :=
  (getFromUi write
     (getValueAs units (ConstraintCurrentDensity.CurrentDensity obj) "A/m^2")
     "A/m^2" "I/L^2").

Lemma output_zero obj name s :
  rounded_magnitude write units obj = 0%Q ->
  output obj name s = (Raise (WriteError msg_zero_current_density), s).
Proof.
  intros H. unfold _outputMagnetodynamic2DBodyForce.
  apply is_zero_round in H. unfold rounded_magnitude in H. by rewrite H.
Qed.

Lemma output_nonzero obj name s :
  rounded_magnitude write units obj <> 0%Q ->
  output obj name s =
  (Return tt,
   add_directives
     [bodyForce_directive (rounded_magnitude write units obj) name] s).
Proof.
  intros H. unfold _outputMagnetodynamic2DBodyForce.
  destruct (is_zero _) eqn:Hz; [|reflexivity].
  apply is_zero_round in Hz. by destruct H.
Qed.

(** C2: a body force emission rounds the magnitude fetched from the
    constraint to 10 decimals; it raises the zero-source error exactly
    when the rounded magnitude is 0, leaving the sink as it was, and
    otherwise writes the rounded magnitude as the [Current Density] of
    the body.  A magnitude of 1e-12 is rejected. *)
Theorem zero_source_after_rounding obj name s :
  let magnitude := magnitude_of obj in
  let r := round magnitude 10 in
  (fst (output obj name s) = Raise (WriteError msg_zero_current_density)
     <-> r = 0%Q)
  /\ (r = 0%Q ->
      output obj name s = (Raise (WriteError msg_zero_current_density), s))
  /\ (r <> 0%Q ->
      output obj name s =
      (Return tt,
       add_directives
         [mkDirective GBodyForce (Some name) "Current Density" (ANum r)] s))
  /\ ((magnitude == 1 # 1000000000000)%Q ->
      output obj name s = (Raise (WriteError msg_zero_current_density), s)).
Proof.
  intros magnitude r.
  assert (Hr : r = rounded_magnitude write units obj) by reflexivity.
  split; [|split; [|split]].
  - split.
    + intros H. destruct (is_zero r) eqn:Hz; [by apply is_zero_round|].
      assert (Hne : rounded_magnitude write units obj <> 0%Q).
      { intros H0. apply is_zero_round in H0.
        unfold r, magnitude in Hz. congruence. }
      rewrite (output_nonzero _ _ _ Hne) in H. discriminate.
    + intros H. rewrite Hr in H. by rewrite (output_zero _ _ _ H).
  - intros H. rewrite Hr in H. by apply output_zero.
  - intros H. rewrite Hr in H. by rewrite (output_nonzero _ _ _ H).
  - intros H. apply output_zero. by apply round_tiny_is_zero.
Qed.

(** *** The loop over the bodies of one constraint *)

Lemma for_each_output obj names s :
  for_each names (fun name => output obj name) s =
  if is_zero (rounded_magnitude write units obj) then
    match names with
    | [] => (Return tt, s)
    | _ :: _ => (Raise (WriteError msg_zero_current_density), s)
    end
  else
    (Return tt,
     add_directives
       (map (bodyForce_directive (rounded_magnitude write units obj)) names)
       s).
Proof.
  destruct (is_zero _) eqn:Hz.
  - apply is_zero_round in Hz. destruct names as [|name names].
    + reflexivity.
    + apply for_each_raises. by apply output_zero.
  - assert (Hne : rounded_magnitude write units obj <> 0%Q).
    { intros H0. apply is_zero_round in H0. unfold rounded_magnitude in Hz.
      congruence. }
    rewrite (for_each_emits _
               (fun name =>
                  [bodyForce_directive
                     (rounded_magnitude write units obj) name])).
    + by rewrite flat_map_singleton.
    + intros name s0. by apply output_nonzero.
Qed.

(** *** Marking *)

Lemma handled_spec o s : handled o s = (Return tt, add_handled {[o]} s).
Proof. reflexivity. Qed.

Lemma add_handled_twice o s :
  add_handled {[o]} (add_handled {[o]} s) = add_handled {[o]} s.
Proof.
  unfold add_handled. simpl. f_equal.
  rewrite (assoc_L union). rewrite (idemp_L union). reflexivity.
Qed.

Lemma handled_twice o (s : Sink) :
  (handled o ;; handled o) s = handled o s.
Proof.
  unfold bind. rewrite !handled_spec. by rewrite add_handled_twice.
Qed.

(** *** One constraint *)

Lemma bodyForces_of_constraint_spec n bodies c s :
  bodyForces_of_constraint write units n bodies c s =
  match ConstraintCurrentDensity.References c with
  | (_, names) :: _ =>
      (for_each names (fun name => output c name) ;;
       handled (ConstraintCurrentDensity.Name c)) s
  | [] =>
      if (n =? 1)%nat then
        (for_each bodies (fun name => output c name) ;;
         handled (ConstraintCurrentDensity.Name c)) s
      else (Raise (WriteError msg_several_without_reference), s)
  end.
Proof.
  unfold bodyForces_of_constraint.
  destruct (ConstraintCurrentDensity.References c) as [|[o names] rest].
  - destruct (n =? 1)%nat; reflexivity.
  - unfold bind. destruct (for_each names _ s) as [[[]|e] s1]; [|reflexivity].
    rewrite !handled_spec. by rewrite add_handled_twice.
Qed.

(** What one constraint does to the sink, when it does not raise. *)
Lemma bodyForces_of_constraint_Return n bodies c s s' :
  bodyForces_of_constraint write units n bodies c s = (Return tt, s') ->
  exists names,
    s' = add_handled {[ConstraintCurrentDensity.Name c]}
           (add_directives
              (map (bodyForce_directive (rounded_magnitude write units c))
                   names) s).
Proof.
  rewrite bodyForces_of_constraint_spec.
  assert (Hloop : forall names,
    (for_each names (fun name => output c name) ;;
     handled (ConstraintCurrentDensity.Name c)) s = (Return tt, s') ->
    exists names0,
      s' = add_handled {[ConstraintCurrentDensity.Name c]}
             (add_directives
                (map (bodyForce_directive (rounded_magnitude write units c))
                     names0) s)).
  { intros names. unfold bind. rewrite for_each_output.
    destruct (is_zero _).
    - destruct names; [|discriminate]. rewrite handled_spec.
      intros [= <-]. exists []. simpl. by rewrite add_directives_nil.
    - rewrite handled_spec. intros [= <-]. by exists names. }
  destruct (ConstraintCurrentDensity.References c) as [|[o names] rest].
  - destruct (n =? 1)%nat; [apply Hloop|discriminate].
  - apply Hloop.
Qed.

(** The exceptions one constraint can raise. *)
Lemma bodyForces_of_constraint_Raise n bodies c s e s' :
  bodyForces_of_constraint write units n bodies c s = (Raise e, s') ->
  e = WriteError msg_zero_current_density
  \/ e = WriteError msg_several_without_reference.
Proof.
  rewrite bodyForces_of_constraint_spec.
  assert (Hloop : forall names,
    (for_each names (fun name => output c name) ;;
     handled (ConstraintCurrentDensity.Name c)) s = (Raise e, s') ->
    e = WriteError msg_zero_current_density).
  { intros names. unfold bind. rewrite for_each_output.
    destruct (is_zero _).
    - destruct names; rewrite ?handled_spec; by intros [= <-].
    - rewrite handled_spec. discriminate. }
  destruct (ConstraintCurrentDensity.References c) as [|[o names] rest].
  - destruct (n =? 1)%nat.
    + intros H. left. by eapply Hloop.
    + intros [= <- _]. by right.
  - intros H. left. by eapply Hloop.
Qed.

(** *** The whole method *)

Local Abbreviation currentDensities :=
  (getMember_ConstraintCurrentDensity write).
Local Abbreviation handleBodyForces :=
  (handleMagnetodynamic2DBodyForces write units).
Local Abbreviation step bodies :=
  (bodyForces_of_constraint write units (length currentDensities) bodies).

Lemma handleBodyForces_nonempty bodies s :
  currentDensities <> [] ->
  handleBodyForces bodies s = for_each currentDensities (step bodies) s.
Proof.
  intros H. unfold handleMagnetodynamic2DBodyForces.
  destruct currentDensities; [done|reflexivity].
Qed.

Lemma bodyForces_of_constraint_Raise_sink n bodies c s e s' :
  bodyForces_of_constraint write units n bodies c s = (Raise e, s') ->
  s' = s.
Proof.
  rewrite bodyForces_of_constraint_spec.
  assert (Hloop : forall names,
    (for_each names (fun name => output c name) ;;
     handled (ConstraintCurrentDensity.Name c)) s = (Raise e, s') ->
    s' = s).
  { intros names. unfold bind. rewrite for_each_output.
    destruct (is_zero _).
    - destruct names; rewrite ?handled_spec; by intros [= <-].
    - rewrite handled_spec. discriminate. }
  destruct (ConstraintCurrentDensity.References c) as [|[o names] rest].
  - destruct (n =? 1)%nat; [apply Hloop|by intros [= <-]].
  - apply Hloop.
Qed.

(** No step of the loop unmarks an object. *)
Lemma bodyForces_handled_mono n bodies l s :
  handledObjects s ⊆
  handledObjects
    (for_each l (bodyForces_of_constraint write units n bodies) s).2.
Proof.
  revert s. induction l as [|c l IH]; intros s; simpl; [done|].
  unfold bind.
  destruct (bodyForces_of_constraint write units n bodies c s)
    as [[[]|e] s1] eqn:Hc.
  - apply bodyForces_of_constraint_Return in Hc as [names ->].
    etrans; [|apply IH]. simpl. set_solver.
  - apply bodyForces_of_constraint_Raise_sink in Hc as ->. done.
Qed.

(** C1: a current density constraint without references.  (a) When it
    is the only current density constraint of the model, the method
    runs the body force emission for every body of [bodies], in order,
    and marks the constraint; with a magnitude that does not round to
    zero this writes its [Current Density] for every body.  (b) When
    the model has more than one current density constraint, the method
    raises the several-constraints-without-reference error as soon as
    the loop reaches the unreferenced constraint: whatever the
    constraints before it wrote stays, nothing is added. *)
Theorem unreferenced_current_density bodies :
  (forall c s,
      currentDensities = [c] ->
      ConstraintCurrentDensity.References c = [] ->
      handleBodyForces bodies s =
        (for_each bodies (fun name => output c name) ;;
         handled (ConstraintCurrentDensity.Name c)) s
      /\ (rounded_magnitude write units c <> 0%Q ->
          handleBodyForces bodies s =
          (Return tt,
           add_handled {[ConstraintCurrentDensity.Name c]}
             (add_directives
                (map (bodyForce_directive (rounded_magnitude write units c))
                     bodies) s))))
  /\ (forall pre c post s,
      currentDensities = pre ++ c :: post ->
      (1 < length currentDensities)%nat ->
      ConstraintCurrentDensity.References c = [] ->
      handleBodyForces bodies s =
        match for_each pre (step bodies) s with
        | (Return _, s') =>
            (Raise (WriteError msg_several_without_reference), s')
        | (Raise e, s') => (Raise e, s')
        end).
Proof.
  split.
  - intros c s Hcds Hrefs.
    assert (Hrun : handleBodyForces bodies s =
                   (for_each bodies (fun name => output c name) ;;
                    handled (ConstraintCurrentDensity.Name c)) s).
    { rewrite handleBodyForces_nonempty; [|by rewrite Hcds].
      rewrite Hcds. simpl. unfold bind at 1.
      rewrite bodyForces_of_constraint_spec, Hrefs. simpl.
      by destruct ((for_each bodies _ ;; handled _) s) as [[[]|e] s1]. }
    split; [exact Hrun|].
    intros Hne. rewrite Hrun. unfold bind. rewrite for_each_output.
    destruct (is_zero _) eqn:Hz; [|reflexivity].
    apply is_zero_round in Hz. by destruct Hne.
  - intros pre c post s Hcds Hlen Hrefs.
    rewrite handleBodyForces_nonempty; [|by rewrite Hcds; destruct pre].
    rewrite Hcds at 1. rewrite for_each_app. unfold bind at 1.
    destruct (for_each pre _ s) as [[[]|e] s1]; [|reflexivity].
    simpl. unfold bind.
    rewrite bodyForces_of_constraint_spec, Hrefs.
    destruct (length currentDensities =? 1)%nat eqn:Hn; [|reflexivity].
    apply Nat.eqb_eq in Hn. lia.
Qed.

(** C8: the method raises the no-current-density error exactly when
    the model has no current density constraint, and it does so with
    the sink untouched. *)
Theorem missing_source bodies s :
  ((handleBodyForces bodies s).1 = Raise (WriteError msg_no_current_density)
     <-> currentDensities = [])
  /\ (currentDensities = [] ->
      handleBodyForces bodies s =
      (Raise (WriteError msg_no_current_density), s)).
Proof.
  assert (Hempty : currentDensities = [] ->
                   handleBodyForces bodies s =
                   (Raise (WriteError msg_no_current_density), s)).
  { intros H. unfold handleMagnetodynamic2DBodyForces. by rewrite H. }
  split; [split|exact Hempty].
  - intros Hraise.
    destruct currentDensities as [|c l] eqn:Hcds; [done|].
    rewrite handleBodyForces_nonempty in Hraise; [|by rewrite Hcds].
    destruct (for_each _ _ s) as [o s1] eqn:Hrun. simpl in Hraise. subst o.
    apply for_each_Raise_inv in Hrun as (x & s0 & _ & Hx).
    apply bodyForces_of_constraint_Raise in Hx as [Hx|Hx]; discriminate.
  - intros H. by rewrite Hempty.
Qed.

(** C7: a current density constraint that the loop processes without
    raising is marked handled, through the branch with references as
    through the one without; the marks stay until the method ends,
    also when a later constraint raises.  Marking an object a second
    time, as the branch with references does, returns normally and
    changes neither the marks nor the directives. *)
Theorem processed_constraints_handled bodies :
  (forall n c s s',
      bodyForces_of_constraint write units n bodies c s = (Return tt, s') ->
      ConstraintCurrentDensity.Name c ∈ handledObjects s')
  /\ (forall pre post s s1,
      currentDensities = pre ++ post ->
      for_each pre (step bodies) s = (Return tt, s1) ->
      forall c, c ∈ pre ->
        ConstraintCurrentDensity.Name c ∈ handledObjects s1
        /\ ConstraintCurrentDensity.Name c
             ∈ handledObjects (handleBodyForces bodies s).2)
  /\ (forall s s',
      handleBodyForces bodies s = (Return tt, s') ->
      forall c, c ∈ currentDensities ->
        ConstraintCurrentDensity.Name c ∈ handledObjects s')
  /\ (forall n c o names rest s,
      ConstraintCurrentDensity.References c = (o, names) :: rest ->
      bodyForces_of_constraint write units n bodies c s =
        (for_each names (fun name => output c name) ;;
         handled (ConstraintCurrentDensity.Name c)) s)
  /\ (forall o s,
      (handled o ;; handled o) s = handled o s
      /\ (handled o s).1 = Return tt
      /\ directives (handled o s).2 = directives s).
Proof.
  assert (Hloop : forall l s s',
    for_each l (step bodies) s = (Return tt, s') ->
    forall c, c ∈ l -> ConstraintCurrentDensity.Name c ∈ handledObjects s').
  { apply (for_each_Return_all (step bodies)
             (fun c s => ConstraintCurrentDensity.Name c ∈ handledObjects s)).
    - intros c s s' Hc.
      apply bodyForces_of_constraint_Return in Hc as [names ->].
      simpl. set_solver.
    - intros c y s s' Hin Hy.
      apply bodyForces_of_constraint_Return in Hy as [names ->].
      simpl. set_solver. }
  split; [|split; [|split; [|split]]].
  - intros n c s s' Hc.
    apply bodyForces_of_constraint_Return in Hc as [names ->].
    simpl. set_solver.
  - intros pre post s s1 Hcds Hpre c Hc.
    assert (H1 : ConstraintCurrentDensity.Name c ∈ handledObjects s1)
      by (by eapply Hloop).
    split; [exact H1|].
    rewrite handleBodyForces_nonempty.
    2:{ rewrite Hcds. destruct pre; [by apply not_elem_of_nil in Hc|done]. }
    rewrite Hcds at 1. rewrite for_each_app. unfold bind at 1.
    rewrite Hpre. by apply bodyForces_handled_mono.
  - intros s s' Hrun c Hc.
    rewrite handleBodyForces_nonempty in Hrun.
    2:{ intros H. rewrite H in Hc. by apply not_elem_of_nil in Hc. }
    by eapply Hloop.
  - intros n c o names rest s Hrefs.
    by rewrite bodyForces_of_constraint_spec, Hrefs.
  - intros o s. split; [apply handled_twice|done].
Qed.

End BodyForces.

(** ** The equation section *)

Section EquationSection.

Variable eq : Equation.t.

Local Abbreviation frequency :=
  (Units.Value (Equation.AngularFrequency eq)).

Lemma equation_of_body_spec b s :
  equation_of_body eq b s =
  if Equation.IsHarmonic eq && is_zero frequency
  then (Raise (WriteError msg_zero_angular_frequency), s)
  else (Return tt, add_directives (equation_directives eq b) s).
Proof.
  unfold equation_of_body.
  destruct (Equation.IsHarmonic eq && is_zero frequency); [reflexivity|].
  unfold bind, ret, equation. rewrite !emit_spec.
  by rewrite add_directives_app.
Qed.

Lemma handleEquation_cons b bodies s :
  handleMagnetodynamic2DEquation (b :: bodies) eq s =
  if Equation.IsHarmonic eq && is_zero frequency
  then (Raise (WriteError msg_zero_angular_frequency), s)
  else handleMagnetodynamic2DEquation bodies eq
         (add_directives (equation_directives eq b) s).
Proof.
  unfold handleMagnetodynamic2DEquation. simpl. unfold bind.
  rewrite equation_of_body_spec. by destruct (_ && _).
Qed.

Lemma handleEquation_emits bodies s :
  Equation.IsHarmonic eq && is_zero frequency = false ->
  handleMagnetodynamic2DEquation bodies eq s =
  (Return tt, add_directives (flat_map (equation_directives eq) bodies) s).
Proof.
  intros H. apply for_each_emits. intros b s0.
  by rewrite equation_of_body_spec, H.
Qed.

Lemma handleEquation_raises bodies s :
  bodies <> [] ->
  Equation.IsHarmonic eq = true ->
  (frequency == 0)%Q ->
  handleMagnetodynamic2DEquation bodies eq s =
  (Raise (WriteError msg_zero_angular_frequency), s).
Proof.
  intros Hne Hh Hz. destruct bodies as [|b bodies]; [done|].
  rewrite handleEquation_cons, Hh. unfold is_zero.
  apply Qeq_bool_iff in Hz. by rewrite Hz.
Qed.

(** C3: over a non-empty list of bodies, a harmonic equation with a
    zero angular frequency raises the zero-frequency error.  The test
    is part of the loop body: it is made for a body before the two
    directives of that body are written.  A non-harmonic equation
    never raises, whatever its frequency, and for every body for which
    the test passes the method writes [Name] and then the numeric
    [Angular Frequency] in the equation section of that body. *)
Theorem zero_frequency_check bodies s :
  (bodies <> [] ->
   Equation.IsHarmonic eq = true ->
   (frequency == 0)%Q ->
   (handleMagnetodynamic2DEquation bodies eq s).1 =
   Raise (WriteError msg_zero_angular_frequency))
  /\ (forall b rest s0,
      handleMagnetodynamic2DEquation (b :: rest) eq s0 =
      if Equation.IsHarmonic eq && is_zero frequency
      then (Raise (WriteError msg_zero_angular_frequency), s0)
      else handleMagnetodynamic2DEquation rest eq
             (add_directives
                [ mkDirective GEquation (Some b) "Name"
                    (AStr (Equation.Name eq));
                  mkDirective GEquation (Some b) "Angular Frequency"
                    (ANum frequency) ] s0))
  /\ (Equation.IsHarmonic eq = false ->
      handleMagnetodynamic2DEquation bodies eq s =
      (Return tt,
       add_directives (flat_map (equation_directives eq) bodies) s))
  /\ (~ (Equation.IsHarmonic eq = true /\ (frequency == 0)%Q) ->
      handleMagnetodynamic2DEquation bodies eq s =
      (Return tt,
       add_directives (flat_map (equation_directives eq) bodies) s)).
Proof.
  split; [|split; [|split]].
  - intros Hne Hh Hz. by rewrite handleEquation_raises.
  - intros b rest s0. apply handleEquation_cons.
  - intros Hh. apply handleEquation_emits. by rewrite Hh.
  - intros Hn. apply handleEquation_emits.
    destruct (Equation.IsHarmonic eq) eqn:Hh; [|reflexivity].
    destruct (is_zero frequency) eqn:Hz; [|reflexivity].
    destruct Hn. split; [reflexivity|]. by apply Qeq_bool_iff.
Qed.

(** C10: a harmonic equation with a zero angular frequency, over a
    non-empty list of bodies, raises at the first body, before any
    write: the sink is the one the method started from. *)
Theorem zero_frequency_leaves_sink bodies s :
  bodies <> [] ->
  Equation.IsHarmonic eq = true ->
  (frequency == 0)%Q ->
  handleMagnetodynamic2DEquation bodies eq s =
    (Raise (WriteError msg_zero_angular_frequency), s)
  /\ directives (handleMagnetodynamic2DEquation bodies eq s).2 =
     directives s.
Proof.
  intros Hne Hh Hz. rewrite handleEquation_raises by done. done.
Qed.

End EquationSection.

(** ** Materials *)

Lemma for_each_map {A B} (f : A -> B) (body : B -> M unit) l s :
  for_each (map f l) body s = for_each l (fun x => body (f x)) s.
Proof.
  revert s. induction l as [|x l IH]; intros s; simpl; [reflexivity|].
  unfold bind. destruct (body (f x) s) as [[[]|e] s1]; [apply IH|reflexivity].
Qed.

Section Materials.

Variable write : Writer.
Variable float : string -> option Q.

Local Abbreviation has_material :=
  (fun b : string => getBodyMaterial write b <> None).
Local Abbreviation handleMaterial :=
  (handleMagnetodynamic2DMaterial write float).
Local Abbreviation of_pair :=
  (fun p : gmap string string * string =>
     material_of_body write float p.1 p.2).

(** *** The check of the bodies *)

Lemma check_bodies_pass bodies s :
  Forall has_material bodies ->
  for_each bodies (check_body_material write) s = (Return tt, s).
Proof.
  induction 1 as [|b bodies Hb _ IH]; simpl; [reflexivity|].
  unfold bind, check_body_material.
  by destruct (getBodyMaterial write b).
Qed.

Lemma check_bodies_fail pre b post s :
  Forall has_material pre ->
  getBodyMaterial write b = None ->
  for_each (pre ++ b :: post) (check_body_material write) s =
  (Raise (WriteError (msg_body_without_material b)), s).
Proof.
  intros Hpre Hb. rewrite for_each_app. unfold bind at 1.
  rewrite (check_bodies_pass _ _ Hpre). simpl. unfold bind.
  unfold check_body_material. by rewrite Hb.
Qed.

(** The first body without a material. *)
Lemma first_without_material bodies :
  (exists b, b ∈ bodies /\ getBodyMaterial write b = None) ->
  exists pre b post,
    bodies = pre ++ b :: post
    /\ Forall has_material pre
    /\ getBodyMaterial write b = None.
Proof.
  induction bodies as [|x bodies IH]; intros (b & Hin & Hb).
  - by apply not_elem_of_nil in Hin.
  - destruct (getBodyMaterial write x) as [mat|] eqn:Hx.
    + apply elem_of_cons in Hin as [->|Hin]; [congruence|].
      destruct IH as (pre & b' & post & -> & Hpre & Hb'); [by exists b|].
      exists (x :: pre), b', post. split; [reflexivity|].
      split; [|exact Hb']. constructor; [congruence|exact Hpre].
    + exists [], x, bodies. by repeat split.
Qed.

(** C4: when a body of [bodies] has no material, the method raises
    the error that names a body without material, the first one in the
    order of [bodies], and the sink is untouched: the check of all
    bodies comes before any material directive. *)
Theorem unassigned_body bodies s :
  (exists b, b ∈ bodies /\ getBodyMaterial write b = None) ->
  exists pre b post,
    bodies = pre ++ b :: post
    /\ Forall has_material pre
    /\ getBodyMaterial write b = None
    /\ handleMaterial bodies s =
       (Raise
          (WriteError
             ("The body " +:+ b +:+ " is not referenced in any material."
              +:+ LF +:+ LF)),
        s).
Proof.
  intros H. apply first_without_material in H
    as (pre & b & post & -> & Hpre & Hb).
  exists pre, b, post. repeat split; [done..|].
  unfold handleMagnetodynamic2DMaterial, bind.
  by rewrite (check_bodies_fail _ _ _ _ Hpre Hb).
Qed.

(** *** One material and one body *)

Lemma material_of_body_no_conductivity m name s :
  m !! "ElectricalConductivity" = None ->
  material_of_body write float m name s =
  (Raise (WriteError msg_electrical_conductivity), add_console m s).
Proof.
  intros H. unfold material_of_body.
  by rewrite (bool_decide_eq_true_2 _ H).
Qed.

Lemma material_of_body_no_permeability m name s :
  m !! "ElectricalConductivity" <> None ->
  m !! "RelativePermeability" = None ->
  material_of_body write float m name s =
  (Raise (WriteError msg_relative_permeability), add_console m s).
Proof.
  intros Hc Hp. unfold material_of_body.
  rewrite (bool_decide_eq_false_2 _ Hc).
  by rewrite (bool_decide_eq_true_2 _ Hp).
Qed.

Lemma material_of_body_emits m name s n c p pv e :
  m !! "Name" = Some n ->
  m !! "ElectricalConductivity" = Some c ->
  m !! "RelativePermeability" = Some p ->
  float p = Some pv ->
  (forall x, m !! "RelativePermittivity" = Some x -> float x = e) ->
  (m !! "RelativePermittivity" = None -> e = None) ->
  (m !! "RelativePermittivity" <> None -> e <> None) ->
  material_of_body write float m name s =
  (Return tt, add_directives (material_directives write name n c pv e) s).
Proof.
  intros Hn Hc Hp Hpv He Hnone Hsome. unfold material_of_body.
  rewrite bool_decide_eq_false_2 by congruence.
  rewrite bool_decide_eq_false_2 by congruence.
  unfold bind, ret, getitem, float_of_str, material.
  rewrite Hn, Hc, Hp. simpl. rewrite Hpv. simpl.
  unfold add_directives, material_directives.
  destruct (m !! "RelativePermittivity") as [x|] eqn:Hx.
  - rewrite bool_decide_eq_false_2 by done.
    specialize (He x eq_refl). destruct e as [ev|]; [|by destruct Hsome].
    unfold ret. rewrite He. unfold emit. simpl.
    by rewrite <- !app_assoc.
  - rewrite bool_decide_eq_true_2 by done.
    rewrite (Hnone eq_refl). simpl. by rewrite <- !app_assoc.
Qed.

End Materials.

Section MaterialResolution.

Variable write : Writer.
Variable float : string -> option Q.

Local Abbreviation has_material :=
  (fun b : string => getBodyMaterial write b <> None).
Local Abbreviation handleMaterial :=
  (handleMagnetodynamic2DMaterial write float).
Local Abbreviation of_pair :=
  (fun p : gmap string string * string =>
     material_of_body write float p.1 p.2).
Local Abbreviation materials := (getMember_MaterialObject write).

Lemma material_pairs_elem bodies m name :
  (m, name) ∈ material_pairs write bodies <->
  exists obj,
    obj ∈ materials
    /\ m = MaterialObject.Material obj
    /\ name ∈ material_refs write obj
    /\ name ∈ bodies.
Proof.
  unfold material_pairs. rewrite list_elem_of_In, in_flat_map. split.
  - intros (obj & Hobj & Hin). exists obj.
    apply in_map_iff in Hin as (x & [= <- <-] & Hx).
    apply list_elem_of_In, list_elem_of_filter in Hx as [Hb Hr].
    by rewrite list_elem_of_In.
  - intros (obj & Hobj & -> & Hr & Hb). exists obj.
    split; [by apply list_elem_of_In|].
    apply in_map_iff. exists name. split; [reflexivity|].
    by apply list_elem_of_In, list_elem_of_filter.
Qed.

(** The two nested loops visit the pairs of [material_pairs]. *)
Lemma materials_loop_pairs bodies s :
  for_each materials (material_of_object write float bodies) s =
  for_each (material_pairs write bodies) of_pair s.
Proof.
  unfold material_pairs. revert s.
  induction materials as [|obj l IH]; intros s; simpl; [reflexivity|].
  rewrite for_each_app. unfold bind. rewrite for_each_map.
  unfold material_of_object. simpl.
  destruct (for_each _ _ s) as [[[]|e] s1]; [apply IH|reflexivity].
Qed.

Lemma handleMaterial_pairs bodies s :
  Forall has_material bodies ->
  handleMaterial bodies s = for_each (material_pairs write bodies) of_pair s.
Proof.
  intros H. unfold handleMagnetodynamic2DMaterial, bind.
  rewrite (check_bodies_pass _ _ _ H). apply materials_loop_pairs.
Qed.

(** C5, as amended: once every body of [bodies] has a material, the
    method visits, in the order of its two loops, every pair of a
    material object and a body of [bodies] that is among the names of
    the first entry of its references, or among all bodies of the model
    when it has no references.  For such a pair it raises the
    electrical conductivity error when the material has no
    [ElectricalConductivity], else the relative permeability error
    when it has no [RelativePermeability]; else, provided the material
    has a [Name] and its relative permeability and relative
    permittivity texts are numerals, it writes [Name], the
    conductivity converted and rounded to 10 decimals, the relative
    permeability, and the relative permittivity exactly when the
    material has one. *)
Theorem material_emission bodies :
  (forall m name,
      (m, name) ∈ material_pairs write bodies <->
      exists obj,
        obj ∈ materials
        /\ m = MaterialObject.Material obj
        /\ name ∈ bodies
        /\ ((exists o names rest,
                MaterialObject.References obj = (o, names) :: rest
                /\ name ∈ names)
            \/ (MaterialObject.References obj = []
                /\ name ∈ getAllBodies write)))
  /\ (forall s,
      Forall has_material bodies ->
      handleMaterial bodies s =
      for_each (material_pairs write bodies) of_pair s)
  /\ (forall pre m name post s s1,
      Forall has_material bodies ->
      material_pairs write bodies = pre ++ (m, name) :: post ->
      for_each pre of_pair s = (Return tt, s1) ->
      handleMaterial bodies s =
      (material_of_body write float m name ;; for_each post of_pair) s1)
  /\ (forall m name s,
      m !! "ElectricalConductivity" = None ->
      material_of_body write float m name s =
      (Raise (WriteError msg_electrical_conductivity), add_console m s))
  /\ (forall m name s,
      m !! "ElectricalConductivity" <> None ->
      m !! "RelativePermeability" = None ->
      material_of_body write float m name s =
      (Raise (WriteError msg_relative_permeability), add_console m s))
  /\ (forall m name s n c p pv,
      m !! "Name" = Some n ->
      m !! "ElectricalConductivity" = Some c ->
      m !! "RelativePermeability" = Some p ->
      float p = Some pv ->
      (m !! "RelativePermittivity" = None ->
       material_of_body write float m name s =
       (Return tt,
        add_directives
          [ mkDirective GMaterial (Some name) "Name" (AStr n);
            mkDirective GMaterial (Some name) "Electric Conductivity"
              (ANum (round (convert write c "T^3*I^2/(L^3*M)") 10));
            mkDirective GMaterial (Some name) "Relative Permeability"
              (ANum pv) ] s))
      /\ (forall e ev,
          m !! "RelativePermittivity" = Some e ->
          float e = Some ev ->
          material_of_body write float m name s =
          (Return tt,
           add_directives
             [ mkDirective GMaterial (Some name) "Name" (AStr n);
               mkDirective GMaterial (Some name) "Electric Conductivity"
                 (ANum (round (convert write c "T^3*I^2/(L^3*M)") 10));
               mkDirective GMaterial (Some name) "Relative Permeability"
                 (ANum pv);
               mkDirective GMaterial (Some name) "Relative Permittivity"
                 (ANum ev) ] s))).
Proof.
  split.
  { intros m name. rewrite material_pairs_elem. unfold material_refs.
    split.
    - intros (obj & Hobj & Hm & Hr & Hb). exists obj.
      split; [done|]. split; [done|]. split; [done|].
      destruct (MaterialObject.References obj) as [|[o names] rest].
      + by right.
      + left. by exists o, names, rest.
    - intros (obj & Hobj & Hm & Hb & H). exists obj.
      split; [done|]. split; [done|]. split; [|done].
      destruct H as [(o & names & rest & -> & Hn)|[-> Hn]]; done. }
  split; [intros s H; by apply handleMaterial_pairs|].
  split.
  { intros pre m name post s s1 Hb Hpairs Hpre.
    rewrite handleMaterial_pairs by done.
    rewrite Hpairs, for_each_app. unfold bind at 1. by rewrite Hpre. }
  split; [apply material_of_body_no_conductivity|].
  split; [apply material_of_body_no_permeability|].
  intros m name s n c p pv Hn Hc Hp Hpv. split.
  - intros He.
    apply (material_of_body_emits write float m name s n c p pv None);
      try done; congruence.
  - intros e ev He Hev.
    apply (material_of_body_emits write float m name s n c p pv (Some ev));
      try done; congruence.
Qed.

End MaterialResolution.

(** ** The post-processing solver section *)

Lemma apply_updates_lookup key us (s : gmap string Attr) :
  apply_updates us s !! key = updates_lookup key us (s !! key).
Proof.
  unfold apply_updates. revert s.
  induction us as [|[[c k] v] us IH]; intros s; simpl; [reflexivity|].
  rewrite IH. f_equal. case_bool_decide as Hk.
  - subst k. destruct c; [by rewrite lookup_insert_eq|reflexivity].
  - destruct c; [by rewrite lookup_insert_ne|reflexivity].
Qed.

Lemma updates_lookup_other key us d :
  Forall (fun u : bool * string * Attr => u.1.2 <> key) us ->
  updates_lookup key us d = d.
Proof.
  intros H. revert d. induction H as [|u us Hu _ IH]; intros d; simpl.
  - reflexivity.
  - rewrite IH. by rewrite bool_decide_eq_false_2.
Qed.

Lemma post_solver_as_updates write eq :
  getMagnetodynamic2DSolverPost write eq =
  apply_updates (post_solver_updates eq) (createNonlinearSolver write eq).
Proof. reflexivity. Qed.

Section PostSolver.

Variable write : Writer.
Variable eq : Equation.t.

(** C6: in the section of the post-processing solver every
    calculation flag is written only when it is not at the default of
    the solver.  [Calculate Elemental Fields] and [Calculate Nodal
    Fields] are set, to false, exactly when their flag is False; every
    other calculation directive is set, to true, exactly when its flag
    is True.  For a flag at its default the method leaves the key as
    the solver section it started from has it. *)
Theorem post_solver_flags :
  getMagnetodynamic2DSolverPost write eq !! "Calculate Current Density" =
    (if Equation.CalculateCurrentDensity eq
     then Some (ABool true)
     else createNonlinearSolver write eq !! "Calculate Current Density")
  /\ getMagnetodynamic2DSolverPost write eq !! "Calculate Electric Field" =
    (if Equation.CalculateElectricField eq
     then Some (ABool true)
     else createNonlinearSolver write eq !! "Calculate Electric Field")
  /\ getMagnetodynamic2DSolverPost write eq !! "Calculate Elemental Fields" =
    (if Equation.CalculateElementalFields eq
     then createNonlinearSolver write eq !! "Calculate Elemental Fields"
     else Some (ABool false))
  /\ getMagnetodynamic2DSolverPost write eq !! "Calculate Harmonic Loss" =
    (if Equation.CalculateHarmonicLoss eq
     then Some (ABool true)
     else createNonlinearSolver write eq !! "Calculate Harmonic Loss")
  /\ getMagnetodynamic2DSolverPost write eq !! "Calculate Joule Heating" =
    (if Equation.CalculateJouleHeating eq
     then Some (ABool true)
     else createNonlinearSolver write eq !! "Calculate Joule Heating")
  /\ getMagnetodynamic2DSolverPost write eq !! "Calculate Magnetic Field Strength" =
    (if Equation.CalculateMagneticFieldStrength eq
     then Some (ABool true)
     else createNonlinearSolver write eq !! "Calculate Magnetic Field Strength")
  /\ getMagnetodynamic2DSolverPost write eq !! "Calculate Maxwell Stress" =
    (if Equation.CalculateMaxwellStress eq
     then Some (ABool true)
     else createNonlinearSolver write eq !! "Calculate Maxwell Stress")
  /\ getMagnetodynamic2DSolverPost write eq !! "Calculate Nodal Fields" =
    (if Equation.CalculateNodalFields eq
     then createNonlinearSolver write eq !! "Calculate Nodal Fields"
     else Some (ABool false))
  /\ getMagnetodynamic2DSolverPost write eq !! "Calculate Nodal Forces" =
    (if Equation.CalculateNodalForces eq
     then Some (ABool true)
     else createNonlinearSolver write eq !! "Calculate Nodal Forces")
  /\ getMagnetodynamic2DSolverPost write eq !! "Calculate Nodal Heating" =
    (if Equation.CalculateNodalHeating eq
     then Some (ABool true)
     else createNonlinearSolver write eq !! "Calculate Nodal Heating").
Proof.
  rewrite post_solver_as_updates.
  repeat apply conj; rewrite apply_updates_lookup;
    match goal with
    | |- context [createNonlinearSolver write eq !! ?k] =>
        generalize (createNonlinearSolver write eq !! k)
    end;
    intros d; destruct eq; vm_compute;
    repeat match goal with
           | |- context [match ?b with _ => _ end] => is_var b; destruct b
           end;
    reflexivity.
Qed.

End PostSolver.

(** ** Boundary conditions *)

Lemma add_handled_empty s : add_handled ∅ s = s.
Proof.
  destruct s. unfold add_handled. simpl. by rewrite (left_id_L ∅ union).
Qed.

Lemma add_handled_directives h1 h2 ds1 ds2 s :
  add_handled h2 (add_directives ds2 (add_handled h1 (add_directives ds1 s)))
  = add_handled (h1 ∪ h2) (add_directives (ds1 ++ ds2) s).
Proof.
  unfold add_handled, add_directives. simpl. f_equal.
  - by rewrite app_assoc.
  - rewrite (assoc_L union). by rewrite (comm_L union h2 h1).
Qed.

(** A loop whose body only adds directives and marks. *)
Lemma for_each_emits_marks {A} (body : A -> M unit)
    (g : A -> list Directive) (h : A -> gset string) :
  (forall x s,
      body x s = (Return tt, add_handled (h x) (add_directives (g x) s))) ->
  forall l s,
    for_each l body s =
    (Return tt,
     add_handled (⋃ (map h l)) (add_directives (flat_map g l) s)).
Proof.
  intros Hbody l. induction l as [|x l IH]; intros s; simpl.
  - by rewrite add_directives_nil, add_handled_empty.
  - rewrite (bind_Return _ _ _ _ _ (Hbody x s)), IH.
    by rewrite add_handled_directives.
Qed.

Section BoundaryConditions.

Variable write : Writer.
Variable units : UnitsApi.

Local Abbreviation potentials :=
  (getMember_ConstraintElectrostaticPotential write).

Lemma bndCondition_of_body_spec obj name s :
  bndCondition_of_body units obj name s =
  (Return tt, add_directives (boundary_directives units obj name) s).
Proof.
  unfold bndCondition_of_body, boundary_directives, bind, ret, boundary.
  destruct (bool_decide _),
    (ConstraintElectrostaticPotential.PotentialEnabled obj),
    (ConstraintElectrostaticPotential.Potential obj),
    (ConstraintElectrostaticPotential.ElectricInfinity obj);
    rewrite ?emit_spec, ?add_directives_app; simpl;
    by rewrite ?add_directives_nil.
Qed.

Lemma bndConditions_of_constraint_spec obj s :
  bndConditions_of_constraint units obj s =
  (Return tt,
   add_handled (boundary_marks obj)
     (add_directives (boundary_directives_of_constraint units obj) s)).
Proof.
  unfold bndConditions_of_constraint, boundary_marks,
    boundary_directives_of_constraint.
  destruct (ConstraintElectrostaticPotential.References obj)
    as [|[o names] rest].
  - by rewrite add_directives_nil, add_handled_empty.
  - unfold bind.
    rewrite (for_each_emits _ (boundary_directives units obj)).
    + by rewrite handled_spec.
    + intros name s0. apply bndCondition_of_body_spec.
Qed.

Lemma boundary_directives_elem obj name d :
  d ∈ boundary_directives units obj name <->
  (ConstraintElectrostaticPotential.Label obj <> ""
   /\ d = mkDirective GBoundary (Some name) "! FreeCAD Name"
            (AStr (ConstraintElectrostaticPotential.Label obj)))
  \/ (ConstraintElectrostaticPotential.PotentialEnabled obj = true
      /\ exists q,
          ConstraintElectrostaticPotential.Potential obj = Some q
          /\ d = mkDirective GBoundary (Some name) "Potential"
                   (ANum (Units.Value (getValueAs units q "V"))))
  \/ (ConstraintElectrostaticPotential.ElectricInfinity obj = true
      /\ d = mkDirective GBoundary (Some name) "Infinity BC" (ABool true)).
Proof.
  unfold boundary_directives. rewrite !elem_of_app.
  assert (H1 :
    d ∈ (if bool_decide (ConstraintElectrostaticPotential.Label obj = "")
         then []
         else [mkDirective GBoundary (Some name) "! FreeCAD Name"
                 (AStr (ConstraintElectrostaticPotential.Label obj))])
    <-> ConstraintElectrostaticPotential.Label obj <> ""
        /\ d = mkDirective GBoundary (Some name) "! FreeCAD Name"
                 (AStr (ConstraintElectrostaticPotential.Label obj))).
  { case_bool_decide as Hl.
    - rewrite elem_of_nil. tauto.
    - rewrite list_elem_of_singleton. tauto. }
  assert (H2 :
    d ∈ (match ConstraintElectrostaticPotential.PotentialEnabled obj,
               ConstraintElectrostaticPotential.Potential obj with
         | true, Some q =>
             [mkDirective GBoundary (Some name) "Potential"
                (ANum (Units.Value (getValueAs units q "V")))]
         | _, _ => []
         end)
    <-> ConstraintElectrostaticPotential.PotentialEnabled obj = true
        /\ exists q,
            ConstraintElectrostaticPotential.Potential obj = Some q
            /\ d = mkDirective GBoundary (Some name) "Potential"
                     (ANum (Units.Value (getValueAs units q "V")))).
  { destruct (ConstraintElectrostaticPotential.PotentialEnabled obj),
      (ConstraintElectrostaticPotential.Potential obj) as [q|].
    - rewrite list_elem_of_singleton. split.
      + intros ->. split; [done|]. by exists q.
      + by intros [_ (q' & [= <-] & ->)].
    - rewrite elem_of_nil. split; [done|]. by intros [_ (q' & ? & _)].
    - rewrite elem_of_nil. split; [done|]. by intros [? _].
    - rewrite elem_of_nil. split; [done|]. by intros [? _]. }
  assert (H3 :
    d ∈ (if ConstraintElectrostaticPotential.ElectricInfinity obj
         then [mkDirective GBoundary (Some name) "Infinity BC" (ABool true)]
         else [])
    <-> ConstraintElectrostaticPotential.ElectricInfinity obj = true
        /\ d = mkDirective GBoundary (Some name) "Infinity BC"
                 (ABool true)).
  { destruct (ConstraintElectrostaticPotential.ElectricInfinity obj).
    - rewrite list_elem_of_singleton. tauto.
    - rewrite elem_of_nil. split; [done|]. by intros [? _]. }
  rewrite H1, H2, H3. tauto.
Qed.

(** C9: a potential constraint without references is skipped: the
    sink stays as it was, with no directive, no exception and no mark.
    A constraint with references gets, for every body of its (first)
    reference, its label as the [! FreeCAD Name] comment when the
    label is not empty, its [Potential] in volts exactly when
    [PotentialEnabled] is set and a potential is attached, and
    [Infinity BC = true] exactly when [ElectricInfinity] is set; it is
    then marked handled.  The method never raises. *)
Theorem boundary_conditions :
  (forall obj s,
      ConstraintElectrostaticPotential.References obj = [] ->
      bndConditions_of_constraint units obj s = (Return tt, s))
  /\ (forall obj o names rest s,
      ConstraintElectrostaticPotential.References obj = (o, names) :: rest ->
      bndConditions_of_constraint units obj s =
      (Return tt,
       add_handled {[ConstraintElectrostaticPotential.Name obj]}
         (add_directives
            (flat_map (boundary_directives units obj) names) s)))
  /\ (forall obj name,
      let ds := boundary_directives units obj name in
      (mkDirective GBoundary (Some name) "! FreeCAD Name"
         (AStr (ConstraintElectrostaticPotential.Label obj)) ∈ ds
       <-> ConstraintElectrostaticPotential.Label obj <> "")
      /\ (forall v,
          mkDirective GBoundary (Some name) "Potential" v ∈ ds
          <-> ConstraintElectrostaticPotential.PotentialEnabled obj = true
              /\ exists q,
                  ConstraintElectrostaticPotential.Potential obj = Some q
                  /\ v = ANum (Units.Value (getValueAs units q "V")))
      /\ (mkDirective GBoundary (Some name) "Infinity BC" (ABool true) ∈ ds
          <-> ConstraintElectrostaticPotential.ElectricInfinity obj = true)
      /\ (forall d, d ∈ ds ->
          d_group d = GBoundary /\ d_body d = Some name
          /\ (d_name d = "! FreeCAD Name" \/ d_name d = "Potential"
              \/ d_name d = "Infinity BC")))
  /\ (forall s,
      handleMagnetodynamic2DBndConditions write units s =
      (Return tt,
       add_handled (⋃ (map boundary_marks potentials))
         (add_directives
            (flat_map (boundary_directives_of_constraint units) potentials)
            s))).
Proof.
  split; [|split; [|split]].
  - intros obj s Hrefs. rewrite bndConditions_of_constraint_spec.
    unfold boundary_marks, boundary_directives_of_constraint.
    rewrite Hrefs. by rewrite add_directives_nil, add_handled_empty.
  - intros obj o names rest s Hrefs.
    rewrite bndConditions_of_constraint_spec.
    unfold boundary_marks, boundary_directives_of_constraint.
    by rewrite Hrefs.
  - intros obj name ds. subst ds. split; [|split; [|split]].
    + rewrite boundary_directives_elem. split.
      * intros [[H _]|[[_ (q & _ & [=])]|[_ [=]]]]. exact H.
      * intros H. left. by split.
    + intros v. rewrite boundary_directives_elem. split.
      * intros [[_ [=]]|[[H (q & Hq & [= ->])]|[_ [=]]]].
        split; [exact H|]. by exists q.
      * intros [H (q & Hq & ->)]. right. left. split; [exact H|].
        by exists q.
    + rewrite boundary_directives_elem. split.
      * intros [[_ [=]]|[[_ (q & _ & [=])]|[H _]]]. exact H.
      * intros H. right. right. by split.
    + intros d Hd. apply boundary_directives_elem in Hd
        as [[_ ->]|[[_ (q & _ & ->)]|[_ ->]]]; simpl; tauto.
  - intros s. apply for_each_emits_marks.
    intros obj s0. apply bndConditions_of_constraint_spec.
Qed.

End BoundaryConditions.

(** ** The methods on the sample models *)

Example broadcast_5_over_ABC :
  handleMagnetodynamic2DBodyForces
    (Sample.writer true [] [Sample.currentDensity "J" [] 5] [])
    Sample.units ["A"; "B"; "C"] Sample.sink
  = (Return tt,
     mkSink [ bodyForce_directive 5 "A"; bodyForce_directive 5 "B";
              bodyForce_directive 5 "C" ] {["J"]} []).
Proof. vm_compute. reflexivity. Qed.

Example two_unreferenced_constraints :
  handleMagnetodynamic2DBodyForces
    (Sample.writer true []
       [Sample.currentDensity "J1" [] 5; Sample.currentDensity "J2" [] 7] [])
    Sample.units ["A"; "B"; "C"] Sample.sink
  = (Raise (WriteError msg_several_without_reference), Sample.sink).
Proof. vm_compute. reflexivity. Qed.

(** A referenced constraint before the unreferenced one is written and
    marked before the method raises. *)
Example referenced_then_unreferenced :
  handleMagnetodynamic2DBodyForces
    (Sample.writer true []
       [ Sample.currentDensity "J1" [("Box", ["A"])] 5;
         Sample.currentDensity "J2" [] 7 ] [])
    Sample.units ["A"; "B"; "C"] Sample.sink
  = (Raise (WriteError msg_several_without_reference),
     mkSink [bodyForce_directive 5 "A"] {["J1"]} []).
Proof. vm_compute. reflexivity. Qed.

Example body_C_without_material :
  handleMagnetodynamic2DMaterial
    (Sample.writer false
       [Sample.materialObject "Mat" Sample.copper []] [] [])
    Sample.float ["A"; "C"] Sample.sink
  = (Raise (WriteError
              ("The body C is not referenced in any material." +:+ LF +:+ LF)),
     Sample.sink).
Proof. vm_compute. reflexivity. Qed.

Example elemental_fields_disabled :
  getMagnetodynamic2DSolverPost (Sample.writer true [] [] [])
    (Sample.equation false 0 false false) !! "Calculate Elemental Fields"
  = Some (ABool false)
  /\ getMagnetodynamic2DSolverPost (Sample.writer true [] [] [])
       (Sample.equation false 0 true false) !! "Calculate Elemental Fields"
     = None.
Proof. split; vm_compute; reflexivity. Qed.

(** ** Instances of the theorems *)

Lemma unreferenced_current_density_witness :
  handleMagnetodynamic2DBodyForces
    (Sample.writer true [] [Sample.currentDensity "J" [] 5] [])
    Sample.units ["A"; "B"; "C"] Sample.sink
  = (Return tt,
     add_handled {["J"]}
       (add_directives
          (map (bodyForce_directive
                  (rounded_magnitude
                     (Sample.writer true [] [Sample.currentDensity "J" [] 5] [])
                     Sample.units (Sample.currentDensity "J" [] 5)))
               ["A"; "B"; "C"])
          Sample.sink))
  /\ handleMagnetodynamic2DBodyForces
       (Sample.writer true []
          [Sample.currentDensity "J1" [] 5; Sample.currentDensity "J2" [] 7]
          [])
       Sample.units ["A"; "B"; "C"] Sample.sink
     = (Raise (WriteError msg_several_without_reference), Sample.sink).
Proof.
  split.
  - apply (proj1 (unreferenced_current_density
                    (Sample.writer true [] [Sample.currentDensity "J" [] 5] [])
                    Sample.units ["A"; "B"; "C"])
             (Sample.currentDensity "J" [] 5) Sample.sink eq_refl eq_refl).
    vm_compute. discriminate.
  - apply (proj2 (unreferenced_current_density
                    (Sample.writer true []
                       [ Sample.currentDensity "J1" [] 5;
                         Sample.currentDensity "J2" [] 7 ] [])
                    Sample.units ["A"; "B"; "C"])
             [] (Sample.currentDensity "J1" [] 5)
             [Sample.currentDensity "J2" [] 7] Sample.sink eq_refl).
    + simpl. lia.
    + reflexivity.
Defined.

Lemma zero_source_after_rounding_witness :
  _outputMagnetodynamic2DBodyForce (Sample.writer true [] [] []) Sample.units
    (Sample.currentDensity "J" [] (1 # 1000000000000)) "A" Sample.sink
  = (Raise (WriteError msg_zero_current_density), Sample.sink)
  /\ _outputMagnetodynamic2DBodyForce (Sample.writer true [] [] [])
       Sample.units (Sample.currentDensity "J" [] (12345678912 # 10000000000))
       "A" Sample.sink
     = (Return tt,
        add_directives
          [mkDirective GBodyForce (Some "A") "Current Density"
             (ANum (round (12345678912 # 10000000000) 10))]
          Sample.sink).
Proof.
  split.
  - apply (zero_source_after_rounding (Sample.writer true [] [] [])
             Sample.units (Sample.currentDensity "J" [] (1 # 1000000000000))
             "A" Sample.sink).
    reflexivity.
  - apply (zero_source_after_rounding (Sample.writer true [] [] [])
             Sample.units
             (Sample.currentDensity "J" [] (12345678912 # 10000000000))
             "A" Sample.sink).
    vm_compute. discriminate.
Defined.

Lemma zero_frequency_check_witness :
  (handleMagnetodynamic2DEquation ["A"; "B"] (Sample.equation true 0 true false)
     Sample.sink).1
  = Raise (WriteError msg_zero_angular_frequency)
  /\ handleMagnetodynamic2DEquation ["A"; "B"]
       (Sample.equation false 0 true false) Sample.sink
     = (Return tt,
        add_directives
          (flat_map (equation_directives (Sample.equation false 0 true false))
             ["A"; "B"])
          Sample.sink).
Proof.
  split.
  - apply (proj1 (zero_frequency_check (Sample.equation true 0 true false)
                    ["A"; "B"] Sample.sink)); [discriminate|reflexivity..].
  - apply (proj1 (proj2 (proj2 (zero_frequency_check
                                  (Sample.equation false 0 true false)
                                  ["A"; "B"] Sample.sink)))).
    reflexivity.
Defined.

Lemma zero_frequency_leaves_sink_witness :
  handleMagnetodynamic2DEquation ["A"; "B"] (Sample.equation true 0 true false)
    Sample.sink
  = (Raise (WriteError msg_zero_angular_frequency), Sample.sink)
  /\ directives
       (handleMagnetodynamic2DEquation ["A"; "B"]
          (Sample.equation true 0 true false) Sample.sink).2
     = directives Sample.sink.
Proof.
  apply (zero_frequency_leaves_sink (Sample.equation true 0 true false)
           ["A"; "B"] Sample.sink); [discriminate|reflexivity..].
Defined.

Lemma missing_source_witness :
  handleMagnetodynamic2DBodyForces (Sample.writer true [] [] []) Sample.units
    ["A"; "B"; "C"] Sample.sink
  = (Raise (WriteError msg_no_current_density), Sample.sink).
Proof.
  apply (proj2 (missing_source (Sample.writer true [] [] []) Sample.units
                  ["A"; "B"; "C"] Sample.sink)).
  reflexivity.
Defined.

Lemma unassigned_body_witness :
  exists pre b post,
    ["A"; "C"; "B"] = pre ++ b :: post
    /\ Forall
         (fun x =>
            getBodyMaterial
              (Sample.writer false
                 [Sample.materialObject "Mat" Sample.copper []] [] []) x
            <> None) pre
    /\ getBodyMaterial
         (Sample.writer false
            [Sample.materialObject "Mat" Sample.copper []] [] []) b = None
    /\ handleMagnetodynamic2DMaterial
         (Sample.writer false
            [Sample.materialObject "Mat" Sample.copper []] [] [])
         Sample.float ["A"; "C"; "B"] Sample.sink
       = (Raise
            (WriteError
               ("The body " +:+ b +:+ " is not referenced in any material."
                +:+ LF +:+ LF)),
          Sample.sink).
Proof.
  apply (unassigned_body
           (Sample.writer false
              [Sample.materialObject "Mat" Sample.copper []] [] [])
           Sample.float ["A"; "C"; "B"] Sample.sink).
  exists "C". split; [|reflexivity].
  apply list_elem_of_In. simpl. tauto.
Defined.

Lemma material_emission_witness :
  handleMagnetodynamic2DMaterial
    (Sample.writer true
       [ Sample.materialObject "Mat1" Sample.copper
           [("Box", ["B"; "A"]); ("Cylinder", ["C"])];
         Sample.materialObject "Mat2" Sample.air [] ] [] [])
    Sample.float ["A"; "C"] Sample.sink
  = (Return tt,
     mkSink
       [ mkDirective GMaterial (Some "A") "Name" (AStr "Copper");
         mkDirective GMaterial (Some "A") "Electric Conductivity"
           (ANum (5959 # 100));
         mkDirective GMaterial (Some "A") "Relative Permeability" (ANum 1);
         mkDirective GMaterial (Some "A") "Name" (AStr "Air");
         mkDirective GMaterial (Some "A") "Electric Conductivity"
           (ANum (5959 # 100));
         mkDirective GMaterial (Some "A") "Relative Permeability" (ANum 1);
         mkDirective GMaterial (Some "A") "Relative Permittivity" (ANum 1);
         mkDirective GMaterial (Some "C") "Name" (AStr "Air");
         mkDirective GMaterial (Some "C") "Electric Conductivity"
           (ANum (5959 # 100));
         mkDirective GMaterial (Some "C") "Relative Permeability" (ANum 1);
         mkDirective GMaterial (Some "C") "Relative Permittivity" (ANum 1) ]
       ∅ [])
  /\ (Sample.copper, "A")
       ∈ material_pairs
           (Sample.writer true
              [ Sample.materialObject "Mat1" Sample.copper
                  [("Box", ["B"; "A"]); ("Cylinder", ["C"])];
                Sample.materialObject "Mat2" Sample.air [] ] [] [])
           ["A"; "C"]
  /\ material_of_body (Sample.writer true [] [] []) Sample.float Sample.air
       "A" Sample.sink
     = (Return tt,
        add_directives
          [ mkDirective GMaterial (Some "A") "Name" (AStr "Air");
            mkDirective GMaterial (Some "A") "Electric Conductivity"
              (ANum (round (5959 # 100) 10));
            mkDirective GMaterial (Some "A") "Relative Permeability"
              (ANum 1);
            mkDirective GMaterial (Some "A") "Relative Permittivity"
              (ANum 1) ]
          Sample.sink)
  /\ material_of_body (Sample.writer true [] [] []) Sample.float
       (delete "RelativePermeability" Sample.copper) "A" Sample.sink
     = (Raise (WriteError msg_relative_permeability),
        add_console (delete "RelativePermeability" Sample.copper) Sample.sink)
  /\ material_of_body (Sample.writer true [] [] []) Sample.float
       (delete "ElectricalConductivity" Sample.copper) "A" Sample.sink
     = (Raise (WriteError msg_electrical_conductivity),
        add_console (delete "ElectricalConductivity" Sample.copper)
          Sample.sink).
Proof.
  pose proof (material_emission
                (Sample.writer true
                   [ Sample.materialObject "Mat1" Sample.copper
                       [("Box", ["B"; "A"]); ("Cylinder", ["C"])];
                     Sample.materialObject "Mat2" Sample.air [] ] [] [])
                Sample.float ["A"; "C"]) as (Hpairs & Hrun & _).
  pose proof (material_emission (Sample.writer true [] [] []) Sample.float
                ["A"]) as (_ & _ & _ & Hc & Hp & Hemit).
  split; [|split; [|split; [|split]]].
  - rewrite Hrun by (repeat constructor; discriminate).
    vm_compute. reflexivity.
  - apply Hpairs.
    exists (Sample.materialObject "Mat1" Sample.copper
              [("Box", ["B"; "A"]); ("Cylinder", ["C"])]).
    split; [apply list_elem_of_In; simpl; tauto|].
    split; [reflexivity|].
    split; [apply list_elem_of_In; simpl; tauto|].
    left. exists "Box", ["B"; "A"], [("Cylinder", ["C"])].
    split; [reflexivity|]. apply list_elem_of_In. simpl. tauto.
  - apply (proj2 (Hemit Sample.air "A" Sample.sink "Air" "0 S/m" "1" 1%Q
                    eq_refl eq_refl eq_refl eq_refl) "1" 1%Q);
      reflexivity.
  - apply Hp; [discriminate|reflexivity].
  - apply Hc. reflexivity.
Defined.

(** The claim C5 as it was stated: a material with both required
    properties is written.  A material dict with both properties and
    no [Name] is not: the method raises KeyError and writes nothing. *)
Lemma material_emission_counterexample :
  delete "Name" Sample.copper !! "ElectricalConductivity" <> None
  /\ delete "Name" Sample.copper !! "RelativePermeability" <> None
  /\ handleMagnetodynamic2DMaterial
       (Sample.writer true
          [ Sample.materialObject "Mat" (delete "Name" Sample.copper)
              [("Box", ["A"])] ] [] [])
       Sample.float ["A"] Sample.sink
     = (Raise (KeyError "Name"), Sample.sink)
  /\ ~ (exists ds,
          handleMagnetodynamic2DMaterial
            (Sample.writer true
               [ Sample.materialObject "Mat" (delete "Name" Sample.copper)
                   [("Box", ["A"])] ] [] [])
            Sample.float ["A"] Sample.sink
          = (Return tt, add_directives ds Sample.sink)).
Proof.
  assert (Hrun :
    handleMagnetodynamic2DMaterial
      (Sample.writer true
         [ Sample.materialObject "Mat" (delete "Name" Sample.copper)
             [("Box", ["A"])] ] [] [])
      Sample.float ["A"] Sample.sink
    = (Raise (KeyError "Name"), Sample.sink))
    by (vm_compute; reflexivity).
  split; [discriminate|]. split; [discriminate|]. split; [exact Hrun|].
  intros [ds Hds]. rewrite Hrun in Hds. discriminate.
Qed.

Lemma processed_constraints_handled_witness :
  "J1" ∈ handledObjects
           (handleMagnetodynamic2DBodyForces
              (Sample.writer true []
                 [ Sample.currentDensity "J1" [("Box", ["A"; "B"])] 5;
                   Sample.currentDensity "J2" [("Box", ["C"])] 7 ] [])
              Sample.units ["A"; "B"; "C"] Sample.sink).2
  /\ "J" ∈ handledObjects
            (handleMagnetodynamic2DBodyForces
               (Sample.writer true [] [Sample.currentDensity "J" [] 5] [])
               Sample.units ["A"; "B"; "C"] Sample.sink).2.
Proof.
  split.
  - apply (proj1 (proj2 (proj2 (processed_constraints_handled
             (Sample.writer true []
                [ Sample.currentDensity "J1" [("Box", ["A"; "B"])] 5;
                  Sample.currentDensity "J2" [("Box", ["C"])] 7 ] [])
             Sample.units ["A"; "B"; "C"])))
             Sample.sink _ eq_refl
             (Sample.currentDensity "J1" [("Box", ["A"; "B"])] 5)).
    apply list_elem_of_In. simpl. tauto.
  - apply (proj1 (proj2 (proj2 (processed_constraints_handled
             (Sample.writer true [] [Sample.currentDensity "J" [] 5] [])
             Sample.units ["A"; "B"; "C"])))
             Sample.sink _ eq_refl (Sample.currentDensity "J" [] 5)).
    apply list_elem_of_In. simpl. tauto.
Defined.

Lemma boundary_conditions_witness :
  bndConditions_of_constraint Sample.units
    (Sample.potential "P0" "Ground" [] true (Some 0%Q) true) Sample.sink
  = (Return tt, Sample.sink)
  /\ bndConditions_of_constraint Sample.units
       (Sample.potential "P1" "Coil" [("Box", ["Face1"; "Face2"])] true
          (Some (12 # 1)%Q) false)
       Sample.sink
     = (Return tt,
        add_handled {["P1"]}
          (add_directives
             (flat_map
                (boundary_directives Sample.units
                   (Sample.potential "P1" "Coil"
                      [("Box", ["Face1"; "Face2"])] true (Some (12 # 1)%Q)
                      false))
                ["Face1"; "Face2"])
             Sample.sink)).
Proof.
  pose proof (boundary_conditions (Sample.writer true [] [] []) Sample.units)
    as (Hskip & Hrefs & _).
  split.
  - apply Hskip. reflexivity.
  - exact (Hrefs
             (Sample.potential "P1" "Coil" [("Box", ["Face1"; "Face2"])] true
                (Some (12 # 1)%Q) false)
             "Box" ["Face1"; "Face2"] [] Sample.sink eq_refl).
Defined.

Example boundary_of_coil :
  handleMagnetodynamic2DBndConditions
    (Sample.writer true [] []
       [ Sample.potential "P0" "Ground" [] true (Some 0%Q) true;
         Sample.potential "P1" "Coil" [("Box", ["Face1"])] true
           (Some (12 # 1)%Q) false;
         Sample.potential "P2" "" [("Box", ["Face2"])] false
           (Some (3 # 1)%Q) true ])
    Sample.units Sample.sink
  = (Return tt,
     mkSink
       [ mkDirective GBoundary (Some "Face1") "! FreeCAD Name" (AStr "Coil");
         mkDirective GBoundary (Some "Face1") "Potential" (ANum (12 # 1));
         mkDirective GBoundary (Some "Face2") "Infinity BC" (ABool true) ]
       {["P1"; "P2"]} []).
Proof. vm_compute. reflexivity. Qed.

(** * Further properties of the writer *)

(** ** Rounding, as the writer uses it *)

(** The nearest integer is at most one half away. *)
Lemma round_half_even_close (x : Q) :
  (- Zpos (Qden x)
   <= 2 * (Qnum x - round_half_even x * Zpos (Qden x))
   <= Zpos (Qden x))%Z.
Proof.
  unfold round_half_even.
  set (n := Qnum x). set (d := Zpos (Qden x)).
  assert (Hd : (0 < d)%Z) by (subst d; lia).
  pose proof (Z.div_mod n d ltac:(lia)) as Hn.
  pose proof (Z.mod_pos_bound n d Hd) as Hr.
  set (f := (n / d)%Z) in *. set (r := (n mod d)%Z) in *.
  destruct (Z.compare_spec (2 * r) d) as [He|Hl|Hg];
    [destruct (Z.even f)|..]; nia.
Qed.

Lemma round_value (x : Q) (n : nat) :
  (round x n ==
   round_half_even (x * (Zpos (pow10 n) # 1)) # pow10 n)%Q.
Proof. unfold round. apply Qred_correct. Qed.

(** Rounding to [n] decimals moves a value by at most half a unit of
    the last decimal. *)
Lemma round_close (x : Q) (n : nat) :
  (x - (1 # 2 * pow10 n) <= round x n /\
   round x n <= x + (1 # 2 * pow10 n))%Q.
Proof.
  rewrite round_value.
  pose proof (round_half_even_close (x * (Zpos (pow10 n) # 1))) as H.
  set (z := round_half_even _) in *.
  unfold Qmult in H. simpl in H.
  unfold Qle, Qminus, Qplus, Qopp. simpl.
  rewrite !Pos2Z.inj_mul in *.
  set (a := Qnum x) in *. set (b := Zpos (Qden x)) in *.
  set (D := Zpos (pow10 n)) in *.
  assert (0 < b)%Z by (subst b; lia). assert (0 < D)%Z by (subst D; lia).
  split; nia.
Qed.

(** ** What a computation may change *)

#[local] Set Warnings "-clear-no-such-hyp".

Lemma sink_grows_refl P H C s : sink_grows P H C s s.
Proof.
  repeat split.
  - exists []. by rewrite app_nil_r.
  - done.
  - set_solver.
  - exists []. by rewrite app_nil_r.
Qed.

Lemma sink_grows_trans P H C s1 s2 s3 :
  sink_grows P H C s1 s2 -> sink_grows P H C s2 s3 -> sink_grows P H C s1 s3.
Proof.
  intros ((ds1 & E1 & F1) & A1 & B1 & (ms1 & G1 & K1))
         ((ds2 & E2 & F2) & A2 & B2 & (ms2 & G2 & K2)).
  repeat split.
  - exists (ds1 ++ ds2). rewrite E2, E1, app_assoc.
    split; [done|by apply Forall_app].
  - set_solver.
  - set_solver.
  - exists (ms1 ++ ms2). rewrite G2, G1, app_assoc.
    split; [done|by apply Forall_app].
Qed.

Lemma sink_grows_weaken (P P' : Directive -> Prop) (H H' : gset string)
    (C C' : gmap string string -> Prop) s s' :
  (forall d, P d -> P' d) -> H ⊆ H' -> (forall m, C m -> C' m) ->
  sink_grows P H C s s' -> sink_grows P' H' C' s s'.
Proof.
  intros HP HH HC ((ds & E & F) & A & B & (ms & G & K)).
  repeat split.
  - exists ds. split; [done|]. eapply Forall_impl; eauto.
  - done.
  - set_solver.
  - exists ms. split; [done|]. eapply Forall_impl; eauto.
Qed.

Lemma only_adds_ret {A} P H C (a : A) : only_adds P H C (ret a).
Proof. intros s. apply sink_grows_refl. Qed.

Lemma only_adds_raise {A} P H C e : only_adds P H C (@raise A e).
Proof. intros s. apply sink_grows_refl. Qed.

Lemma only_adds_bind {A B} P H C (m : M A) (k : A -> M B) :
  only_adds P H C m -> (forall a, only_adds P H C (k a)) ->
  only_adds P H C (x <- m ;; k x).
Proof.
  intros Hm Hk s. unfold bind. specialize (Hm s).
  destruct (m s) as [[a|e] s1]; simpl in *; [|done].
  eapply sink_grows_trans; [exact Hm|apply Hk].
Qed.

Lemma only_adds_for_each {A} P H C (l : list A) (body : A -> M unit) :
  (forall x, x ∈ l -> only_adds P H C (body x)) ->
  only_adds P H C (for_each l body).
Proof.
  induction l as [|x l IH]; intros Hbody; simpl.
  - apply only_adds_ret.
  - apply only_adds_bind.
    + apply Hbody. by apply elem_of_cons; left.
    + intros _. apply IH. intros y Hy. apply Hbody.
      by apply elem_of_cons; right.
Qed.

Lemma only_adds_emit (P : Directive -> Prop) H C g body name v :
  P (mkDirective g body name v) -> only_adds P H C (emit g body name v).
Proof.
  intros HP s. repeat split; simpl.
  - eexists. split; [done|]. by constructor.
  - done.
  - set_solver.
  - exists []. by rewrite app_nil_r.
Qed.

Lemma only_adds_handled P (H : gset string) C o :
  o ∈ H -> only_adds P H C (handled o).
Proof.
  intros Ho s. repeat split; simpl.
  - exists []. by rewrite app_nil_r.
  - set_solver.
  - set_solver.
  - exists []. by rewrite app_nil_r.
Qed.

Lemma only_adds_PrintMessage P H (C : gmap string string -> Prop) m :
  C m -> only_adds P H C (PrintMessage m).
Proof.
  intros Hm s. repeat split; simpl.
  - exists []. by rewrite app_nil_r.
  - done.
  - set_solver.
  - eexists. split; [done|]. by constructor.
Qed.

Lemma only_adds_getitem P H C d key : only_adds P H C (getitem d key).
Proof.
  unfold getitem. destruct (d !! key);
    [apply only_adds_ret|apply only_adds_raise].
Qed.

Lemma only_adds_float P H C float x : only_adds P H C (float_of_str float x).
Proof.
  unfold float_of_str. destruct (float x);
    [apply only_adds_ret|apply only_adds_raise].
Qed.

(** Nothing was printed when no message is allowed. *)
Lemma sink_grows_console P H s s' :
  sink_grows P H (fun _ => False) s s' -> console s' = console s.
Proof.
  intros (_ & _ & _ & (ms & -> & F)). destruct ms as [|m ms].
  - by rewrite app_nil_r.
  - by inversion F.
Qed.

(** Nothing was marked when no object may be marked. *)
Lemma sink_grows_handled P C s s' :
  sink_grows P ∅ C s s' -> handledObjects s' = handledObjects s.
Proof. intros (_ & A & B & _). set_solver. Qed.

Lemma round10_zero_iff (m : Q) :
  round m 10 = 0%Q <->
  (- (1 # 20000000000) <= m /\ m <= 1 # 20000000000)%Q.
Proof.
  rewrite round_zero_iff. change (pow10 10) with 10000000000%positive.
  unfold Qle, Qmult. simpl. lia.
Qed.

Lemma for_each_ext {A} (l : list A) (f g : A -> M unit) s :
  (forall x s0, x ∈ l -> f x s0 = g x s0) ->
  for_each l f s = for_each l g s.
Proof.
  revert s. induction l as [|x l IH]; intros s Hfg; simpl; [reflexivity|].
  unfold bind. rewrite <- (Hfg x s) by (by apply elem_of_cons; left).
  destruct (f x s) as [[[]|e] s1]; [|reflexivity].
  apply IH. intros y s0 Hy. apply Hfg. by apply elem_of_cons; right.
Qed.

Lemma for_each_emits_marks_in {A} (body : A -> M unit)
    (g : A -> list Directive) (h : A -> gset string) l :
  (forall x, x ∈ l -> forall s,
      body x s = (Return tt, add_handled (h x) (add_directives (g x) s))) ->
  forall s,
    for_each l body s =
    (Return tt,
     add_handled (⋃ (map h l)) (add_directives (flat_map g l) s)).
Proof.
  induction l as [|x l IH]; intros Hbody s; simpl.
  - by rewrite add_directives_nil, add_handled_empty.
  - rewrite (bind_Return _ _ _ _ _
               (Hbody x ltac:(by apply elem_of_cons; left) s)).
    rewrite IH by (intros y Hy; apply Hbody; by apply elem_of_cons; right).
    by rewrite add_handled_directives.
Qed.

(** ** More on body forces *)

Section BodyForcesMore.

Variable write : Writer.
Variable units : UnitsApi.

Local Abbreviation output := (_outputMagnetodynamic2DBodyForce write units).
Local Abbreviation currentDensities :=
  (getMember_ConstraintCurrentDensity write).
Local Abbreviation handleBodyForces :=
  (handleMagnetodynamic2DBodyForces write units).
Local Abbreviation magnitude_of obj :=
  (getFromUi write
     (getValueAs units (ConstraintCurrentDensity.CurrentDensity obj) "A/m^2")
     "A/m^2" "I/L^2").

Lemma only_adds_output marks obj name :
  only_adds is_current_density marks (fun _ => False) (output obj name).
Proof.
  unfold _outputMagnetodynamic2DBodyForce.
  destruct (is_zero _) eqn:Hz; [apply only_adds_raise|].
  apply only_adds_emit. repeat split; simpl; [by eexists|].
  eexists. split; [reflexivity|]. intros H0.
  apply Qeq_bool_iff in H0. unfold is_zero in Hz. congruence.
Qed.

Lemma only_adds_bodyForces_of_constraint marks n bodies c :
  ConstraintCurrentDensity.Name c ∈ marks ->
  only_adds is_current_density marks (fun _ => False)
    (bodyForces_of_constraint write units n bodies c).
Proof.
  intros Hc. unfold bodyForces_of_constraint.
  apply only_adds_bind; [|intros _; by apply only_adds_handled].
  destruct (ConstraintCurrentDensity.References c) as [|[o names] rest].
  - destruct (n =? 1)%nat; [|apply only_adds_raise].
    apply only_adds_for_each. intros name _. apply only_adds_output.
  - apply only_adds_bind; [|intros _; by apply only_adds_handled].
    apply only_adds_for_each. intros name _. apply only_adds_output.
Qed.

Lemma currentDensity_names_elem c :
  c ∈ currentDensities ->
  ConstraintCurrentDensity.Name c ∈ currentDensity_names write.
Proof.
  intros Hc. unfold currentDensity_names. apply elem_of_list_to_set.
  apply list_elem_of_In, in_map. by apply list_elem_of_In.
Qed.

(** X7: Whatever the outcome, the method only adds [Current Density] body
    forces with a non-zero value after the directives that were there,
    marks no object but current density constraints, unmarks nothing
    and prints nothing. *)
Theorem bodyForces_only_adds_current_densities bodies s :
  (exists ds,
      directives (handleBodyForces bodies s).2 = directives s ++ ds
      /\ Forall is_current_density ds)
  /\ handledObjects s ⊆ handledObjects (handleBodyForces bodies s).2
  /\ handledObjects (handleBodyForces bodies s).2
       ⊆ handledObjects s ∪ currentDensity_names write
  /\ console (handleBodyForces bodies s).2 = console s.
Proof.
  assert (H : only_adds is_current_density (currentDensity_names write)
                (fun _ => False) (handleBodyForces bodies)).
  { unfold handleMagnetodynamic2DBodyForces.
    destruct (length currentDensities =? 0)%nat; [apply only_adds_raise|].
    apply only_adds_for_each. intros c Hc.
    apply only_adds_bodyForces_of_constraint.
    by apply currentDensity_names_elem. }
  specialize (H s). pose proof (sink_grows_console _ _ _ _ H) as Hcons.
  destruct H as (Hd & Ha & Hb & _). done.
Qed.

(** X5: The emission of a body force raises the zero error exactly for the
    magnitudes between -5e-11 and 5e-11, bounds included. *)
Theorem zero_source_threshold obj name s :
  (output obj name s).1 = Raise (WriteError msg_zero_current_density)
  <-> (- (1 # 20000000000) <= magnitude_of obj
       /\ magnitude_of obj <= 1 # 20000000000)%Q.
Proof.
  pose proof (round10_zero_iff (magnitude_of obj)) as H.
  unfold _outputMagnetodynamic2DBodyForce.
  destruct (is_zero _) eqn:Hz; simpl.
  - apply is_zero_round in Hz. split; [intros _; by apply H|done].
  - split; [discriminate|]. intros Hb. apply H in Hb.
    apply is_zero_round in Hb. congruence.
Qed.

(** X8: The [bodies] argument only matters for the broadcast of a sole
    constraint without references: with another number of constraints,
    or when every constraint has references, the method does the same
    for any two lists of bodies.  The bodies of a reference are not
    checked against [bodies]. *)
Theorem bodies_only_for_broadcast bodies bodies' s :
  (length currentDensities <> 1%nat
   \/ forall c, c ∈ currentDensities ->
        ConstraintCurrentDensity.References c <> []) ->
  handleMagnetodynamic2DBodyForces write units bodies s
  = handleMagnetodynamic2DBodyForces write units bodies' s.
Proof.
  intros H. unfold handleMagnetodynamic2DBodyForces.
  destruct (length currentDensities =? 0)%nat; [reflexivity|].
  apply for_each_ext. intros c s0 Hc.
  rewrite !bodyForces_of_constraint_spec.
  destruct (ConstraintCurrentDensity.References c) as [|[o names] rest] eqn:E;
    [|reflexivity].
  destruct H as [Hn|Hr].
  - apply Nat.eqb_neq in Hn. by rewrite Hn.
  - by destruct (Hr c Hc).
Qed.

(** X9: When every constraint has references and a magnitude that does not
    round to zero, the method returns after it has written, constraint
    after constraint in the order of the model, the rounded magnitude
    for every name of the first reference, and marked every
    constraint. *)
Theorem referenced_constraints_written bodies s :
  currentDensities <> [] ->
  (forall c, c ∈ currentDensities ->
     ConstraintCurrentDensity.References c <> []
     /\ rounded_magnitude write units c <> 0%Q) ->
  handleBodyForces bodies s =
  (Return tt,
   add_handled (⋃ (map (fun c => {[ConstraintCurrentDensity.Name c]})
                      currentDensities))
     (add_directives
        (flat_map
           (fun c =>
              map (bodyForce_directive (rounded_magnitude write units c))
                  (referenced_bodies c))
           currentDensities) s)).
Proof.
  intros Hne Hall. rewrite handleBodyForces_nonempty by done.
  apply (for_each_emits_marks_in
           (bodyForces_of_constraint write units (length currentDensities)
              bodies)
           (fun c =>
              map (bodyForce_directive (rounded_magnitude write units c))
                  (referenced_bodies c))
           (fun c => {[ConstraintCurrentDensity.Name c]})).
  intros c Hc s0. destruct (Hall c Hc) as [Hr Hm].
  rewrite bodyForces_of_constraint_spec. unfold referenced_bodies.
  destruct (ConstraintCurrentDensity.References c) as [|[o names] rest];
    [done|].
  unfold bind. rewrite for_each_output.
  destruct (is_zero _) eqn:Hz; [|by rewrite handled_spec].
  apply is_zero_round in Hz. by destruct Hm.
Qed.

(** X10: A constraint whose magnitude rounds to zero stops the method with
    the zero error as soon as there is a body to write it for: the
    constraints before it keep what they wrote and their marks, the
    constraint itself is neither written nor marked. *)
Theorem zero_source_stops pre c post o name names rest bodies s :
  currentDensities = pre ++ c :: post ->
  ConstraintCurrentDensity.References c = (o, name :: names) :: rest ->
  rounded_magnitude write units c = 0%Q ->
  handleBodyForces bodies s =
  match for_each pre
          (bodyForces_of_constraint write units (length currentDensities)
             bodies) s with
  | (Return _, s') => (Raise (WriteError msg_zero_current_density), s')
  | (Raise e, s') => (Raise e, s')
  end.
Proof.
  intros Hcds Hrefs Hz.
  rewrite handleBodyForces_nonempty by (rewrite Hcds; by destruct pre).
  rewrite Hcds at 1. rewrite for_each_app. unfold bind at 1.
  destruct (for_each pre _ s) as [[[]|e] s1]; [|reflexivity].
  simpl. unfold bind. rewrite bodyForces_of_constraint_spec, Hrefs.
  unfold bind. rewrite for_each_output.
  apply is_zero_round in Hz. unfold rounded_magnitude in *. by rewrite Hz.
Qed.

(** X11: Without a body to write, a magnitude is not looked at: a sole
    constraint without references over an empty list of bodies, and a
    constraint whose first reference names no body, are marked handled
    and nothing else happens, also when the magnitude is zero. *)
Theorem no_body_no_zero_check :
  (forall c s,
      currentDensities = [c] ->
      ConstraintCurrentDensity.References c = [] ->
      handleBodyForces [] s =
      (Return tt, add_handled {[ConstraintCurrentDensity.Name c]} s))
  /\ (forall n bodies c o rest s,
      ConstraintCurrentDensity.References c = (o, []) :: rest ->
      bodyForces_of_constraint write units n bodies c s =
      (Return tt, add_handled {[ConstraintCurrentDensity.Name c]} s)).
Proof.
  split.
  - intros c s Hcds Hrefs.
    rewrite handleBodyForces_nonempty by (by rewrite Hcds).
    rewrite Hcds. simpl. unfold bind.
    by rewrite bodyForces_of_constraint_spec, Hrefs.
  - intros n bodies c o rest s Hrefs.
    by rewrite bodyForces_of_constraint_spec, Hrefs.
Qed.

End BodyForcesMore.

(** ** The solver sections *)

Lemma updates_lookup_frame key us d :
  key ∉ map (fun u : bool * string * Attr => u.1.2) us ->
  updates_lookup key us d = d.
Proof.
  intros H. apply updates_lookup_other. apply Forall_forall.
  intros u Hu Heq. apply H. rewrite <- Heq. apply list_elem_of_In.
  apply (in_map (fun u : bool * string * Attr => u.1.2)).
  by apply list_elem_of_In.
Qed.

Lemma primary_solver_as_updates write eq :
  getMagnetodynamic2DSolver write eq =
  apply_updates (primary_solver_updates eq) (createNonlinearSolver write eq).
Proof.
  unfold getMagnetodynamic2DSolver, primary_solver_updates.
  by destruct (Equation.IsHarmonic eq).
Qed.

Ltac lookup_in_table write eq :=
  rewrite apply_updates_lookup;
  match goal with
  | |- context [createNonlinearSolver write eq !! ?k] =>
      generalize (createNonlinearSolver write eq !! k)
  | |- _ => generalize (@None Attr)
  end;
  intros ?; destruct eq; vm_compute;
  repeat match goal with
         | |- context [match ?b with _ => _ end] => is_var b; destruct b
         end;
  reflexivity.

Section SolverSections.

Variable write : Writer.
Variable eq : Equation.t.

(** X1: The section of the primary solver names the equation, its procedure
    and its variable after the mode, always executes, optimizes the
    bandwidth and forwards [Stabilize], whatever the section handed out
    by [createNonlinearSolver] held under these keys; every other key
    of that section is kept as it was. *)
Theorem primary_solver_section :
  getMagnetodynamic2DSolver write eq !! "Equation" =
    Some (AStr (if Equation.IsHarmonic eq
                then "MgDyn2DHarmonic" else "MgDyn2D"))
  /\ getMagnetodynamic2DSolver write eq !! "Procedure" =
    Some (FileAttr (if Equation.IsHarmonic eq
                    then "MagnetoDynamics2D/MagnetoDynamics2DHarmonic"
                    else "MagnetoDynamics2D/MagnetoDynamics2D"))
  /\ getMagnetodynamic2DSolver write eq !! "Variable" =
    Some (AStr (if Equation.IsHarmonic eq
                then "Potential[Potential Re:1 Potential Im:1]"
                else "Potential"))
  /\ getMagnetodynamic2DSolver write eq !! "Exec Solver" =
    Some (AStr "Always")
  /\ getMagnetodynamic2DSolver write eq !! "Optimize Bandwidth" =
    Some (ABool true)
  /\ getMagnetodynamic2DSolver write eq !! "Stabilize" =
    Some (ABool (Equation.Stabilize eq))
  /\ (forall k,
        k ∉ primary_solver_keys ->
        getMagnetodynamic2DSolver write eq !! k =
        createNonlinearSolver write eq !! k).
Proof.
  rewrite primary_solver_as_updates.
  repeat apply conj; try lookup_in_table write eq.
  intros k Hk. rewrite apply_updates_lookup.
  by apply updates_lookup_frame.
Qed.

(** X2: The section of the post-processing solver is the [MgDyn2DPost]
    equation with the field calculation procedure, always executed, on
    the variable [Potential], with the bandwidth optimized and
    [Stabilize] forwarded.  The angular frequency is set exactly for a
    harmonic equation.  A key that is not one of the seventeen keys of
    the method is kept as [createNonlinearSolver] handed it out. *)
Theorem post_solver_section :
  getMagnetodynamic2DSolverPost write eq !! "Equation" =
    Some (AStr "MgDyn2DPost")
  /\ getMagnetodynamic2DSolverPost write eq !! "Exec Solver" =
    Some (AStr "Always")
  /\ getMagnetodynamic2DSolverPost write eq !! "Procedure" =
    Some (FileAttr "MagnetoDynamics/MagnetoDynamicsCalcFields")
  /\ getMagnetodynamic2DSolverPost write eq !! "Potential Variable" =
    Some (AStr "Potential")
  /\ getMagnetodynamic2DSolverPost write eq !! "Optimize Bandwidth" =
    Some (ABool true)
  /\ getMagnetodynamic2DSolverPost write eq !! "Stabilize" =
    Some (ABool (Equation.Stabilize eq))
  /\ getMagnetodynamic2DSolverPost write eq !! "Angular Frequency" =
    (if Equation.IsHarmonic eq
     then Some (ANum (Units.Value (Equation.AngularFrequency eq)))
     else createNonlinearSolver write eq !! "Angular Frequency")
  /\ (forall k,
        k ∉ post_solver_keys ->
        getMagnetodynamic2DSolverPost write eq !! k =
        createNonlinearSolver write eq !! k).
Proof.
  rewrite post_solver_as_updates.
  repeat apply conj; try lookup_in_table write eq.
  intros k Hk. rewrite apply_updates_lookup.
  by apply updates_lookup_frame.
Qed.

End SolverSections.

(** ** The constants *)

Section Constants.

Variable write : Writer.

(** X3: With both constants defined, the method writes the permeability
    and then the permittivity of vacuum as constants without body,
    each converted to its unit and rounded to 20 decimals, so at most
    5e-21 away from the converted value. *)
Theorem constants_written mu eps s :
  constsdef write !! "PermeabilityOfVacuum" = Some mu ->
  constsdef write !! "PermittivityOfVacuum" = Some eps ->
  exists p e,
    handleMagnetodynamic2DConstants write s =
    (Return tt,
     add_directives
       [ mkDirective GConstant None "Permeability Of Vacuum" (ANum p);
         mkDirective GConstant None "Permittivity Of Vacuum" (ANum e) ] s)
    /\ p = round (convert write mu "M*L/(T^2*I^2)") 20
    /\ e = round (convert write eps "T^4*I^2/(L^3*M)") 20
    /\ (convert write mu "M*L/(T^2*I^2)" - (1 # 200000000000000000000) <= p
        /\ p <= convert write mu "M*L/(T^2*I^2)"
                + (1 # 200000000000000000000))%Q
    /\ (convert write eps "T^4*I^2/(L^3*M)" - (1 # 200000000000000000000)
          <= e
        /\ e <= convert write eps "T^4*I^2/(L^3*M)"
                + (1 # 200000000000000000000))%Q.
Proof.
  intros Hmu Heps.
  exists (round (convert write mu "M*L/(T^2*I^2)") 20),
         (round (convert write eps "T^4*I^2/(L^3*M)") 20).
  split; [|split; [reflexivity|]].
  - unfold handleMagnetodynamic2DConstants, bind, getitem, constant.
    rewrite Hmu. simpl. rewrite Heps. simpl.
    unfold emit, add_directives. simpl. by rewrite <- app_assoc.
  - split; [reflexivity|]. split; apply (round_close _ 20).
Qed.

(** X4: A constant that [constsdef] does not define makes the method raise
    KeyError: before anything is written when it is the permeability,
    after the permeability has been written when it is the
    permittivity. *)
Theorem constants_missing s :
  (constsdef write !! "PermeabilityOfVacuum" = None ->
   handleMagnetodynamic2DConstants write s =
   (Raise (KeyError "PermeabilityOfVacuum"), s))
  /\ (forall mu,
      constsdef write !! "PermeabilityOfVacuum" = Some mu ->
      constsdef write !! "PermittivityOfVacuum" = None ->
      handleMagnetodynamic2DConstants write s =
      (Raise (KeyError "PermittivityOfVacuum"),
       add_directives
         [ mkDirective GConstant None "Permeability Of Vacuum"
             (ANum (round (convert write mu "M*L/(T^2*I^2)") 20)) ] s)).
Proof.
  split.
  - intros H. unfold handleMagnetodynamic2DConstants, bind, getitem.
    by rewrite H.
  - intros mu Hmu H.
    unfold handleMagnetodynamic2DConstants, bind, getitem, constant.
    rewrite Hmu. simpl. by rewrite H.
Qed.

End Constants.

(** ** More on materials *)

Section MaterialsMore.

Variable write : Writer.
Variable float : string -> option Q.

Local Abbreviation materials := (getMember_MaterialObject write).

(** X12: Materials that reach no body of [bodies] are not looked at: over an
    empty list of bodies, and over bodies that no material object
    refers to, the method returns with the sink as it was, also when
    the dict of a material lacks a required property. *)
Theorem materials_out_of_reach bodies s :
  Forall (fun b => getBodyMaterial write b <> None) bodies ->
  (forall obj n,
      obj ∈ materials -> n ∈ material_refs write obj -> n ∉ bodies) ->
  handleMagnetodynamic2DMaterial write float bodies s = (Return tt, s).
Proof.
  intros Hb Hout. rewrite handleMaterial_pairs by done.
  destruct (material_pairs write bodies) as [|[m name] l] eqn:E;
    [reflexivity|].
  assert (Hin : (m, name) ∈ material_pairs write bodies).
  { rewrite E. by apply elem_of_cons; left. }
  apply material_pairs_elem in Hin as (obj & Hobj & _ & Hr & Hn).
  by destruct (Hout obj name Hobj Hr).
Qed.

(** X13: A material dict with both required properties can still make the
    method raise: KeyError when it has no [Name], before anything is
    written for the body; ValueError when the relative permeability is
    not a numeral, after [Name] and [Electric Conductivity] have been
    written; ValueError when the relative permittivity is not a
    numeral, after the three other directives have been written. *)
Theorem material_malformed m name s c p :
  m !! "ElectricalConductivity" = Some c ->
  m !! "RelativePermeability" = Some p ->
  (m !! "Name" = None ->
   material_of_body write float m name s = (Raise (KeyError "Name"), s))
  /\ (forall n,
      m !! "Name" = Some n ->
      float p = None ->
      material_of_body write float m name s =
      (Raise (ValueError p),
       add_directives
         [ mkDirective GMaterial (Some name) "Name" (AStr n);
           mkDirective GMaterial (Some name) "Electric Conductivity"
             (ANum (round (convert write c "T^3*I^2/(L^3*M)") 10)) ] s))
  /\ (forall n pv e,
      m !! "Name" = Some n ->
      float p = Some pv ->
      m !! "RelativePermittivity" = Some e ->
      float e = None ->
      material_of_body write float m name s =
      (Raise (ValueError e),
       add_directives
         [ mkDirective GMaterial (Some name) "Name" (AStr n);
           mkDirective GMaterial (Some name) "Electric Conductivity"
             (ANum (round (convert write c "T^3*I^2/(L^3*M)") 10));
           mkDirective GMaterial (Some name) "Relative Permeability"
             (ANum pv) ] s)).
Proof.
  intros Hc Hp.
  unfold material_of_body.
  rewrite !bool_decide_eq_false_2 by congruence.
  unfold bind, ret, getitem, float_of_str, material, emit, add_directives.
  rewrite Hc, Hp. simpl.
  split; [|split].
  - by intros ->.
  - intros n -> ->. simpl. by rewrite <- app_assoc.
  - intros n pv e -> -> He Hfe. simpl.
    rewrite bool_decide_eq_false_2 by congruence.
    rewrite He. simpl. rewrite Hfe. simpl. by rewrite <- !app_assoc.
Qed.

Lemma only_adds_material_of_body bodies (C : gmap string string -> Prop)
    m name :
  name ∈ bodies ->
  (m !! "ElectricalConductivity" = None
   \/ m !! "RelativePermeability" = None -> C m) ->
  only_adds (is_material_directive bodies) ∅ C
    (material_of_body write float m name).
Proof.
  intros Hname HC.
  assert (Hemit : forall key v,
    key ∈ [ "Name"; "Electric Conductivity"; "Relative Permeability";
            "Relative Permittivity" ] ->
    only_adds (is_material_directive bodies) ∅ C (material name key v)).
  { intros key v Hkey. apply only_adds_emit.
    split; [done|]. split; [by exists name|done]. }
  unfold material_of_body.
  apply only_adds_bind.
  { case_bool_decide; [|apply only_adds_ret].
    apply only_adds_bind; [apply only_adds_PrintMessage; auto|].
    intros _. apply only_adds_raise. }
  intros _. apply only_adds_bind.
  { case_bool_decide; [|apply only_adds_ret].
    apply only_adds_bind; [apply only_adds_PrintMessage; auto|].
    intros _. apply only_adds_raise. }
  intros _. apply only_adds_bind; [apply only_adds_getitem|]. intros n.
  apply only_adds_bind.
  { apply Hemit. apply list_elem_of_In. simpl. tauto. }
  intros _. apply only_adds_bind; [apply only_adds_getitem|]. intros c.
  apply only_adds_bind.
  { apply Hemit. apply list_elem_of_In. simpl. tauto. }
  intros _. apply only_adds_bind; [apply only_adds_getitem|]. intros p.
  apply only_adds_bind; [apply only_adds_float|]. intros pv.
  apply only_adds_bind.
  { apply Hemit. apply list_elem_of_In. simpl. tauto. }
  intros _. case_bool_decide; [apply only_adds_ret|].
  apply only_adds_bind; [apply only_adds_getitem|]. intros e.
  apply only_adds_bind; [apply only_adds_float|]. intros ev.
  apply Hemit. apply list_elem_of_In. simpl. tauto.
Qed.

(** X15: Whatever the outcome, the method only adds directives of the
    material sections of bodies of [bodies] after the directives that
    were there, marks nothing, and prints only material dicts of the
    model that lack a required property. *)
Theorem material_only_adds_material_directives bodies s :
  (exists ds,
      directives (handleMagnetodynamic2DMaterial write float bodies s).2
      = directives s ++ ds
      /\ Forall (is_material_directive bodies) ds)
  /\ handledObjects (handleMagnetodynamic2DMaterial write float bodies s).2
     = handledObjects s
  /\ (exists ms,
      console (handleMagnetodynamic2DMaterial write float bodies s).2
      = console s ++ ms
      /\ Forall (is_incomplete_material write) ms).
Proof.
  assert (H : only_adds (is_material_directive bodies) ∅
                (is_incomplete_material write)
                (handleMagnetodynamic2DMaterial write float bodies)).
  { unfold handleMagnetodynamic2DMaterial. apply only_adds_bind.
    - apply only_adds_for_each. intros b _. unfold check_body_material.
      destruct (getBodyMaterial write b);
        [apply only_adds_ret|apply only_adds_raise].
    - intros _. apply only_adds_for_each. intros obj Hobj.
      unfold material_of_object. apply only_adds_for_each.
      intros name Hname. apply list_elem_of_filter in Hname as [Hb _].
      apply only_adds_material_of_body; [done|].
      intros Hm. split; [by exists obj|done]. }
  specialize (H s). pose proof (sink_grows_handled _ _ _ _ H) as Hh.
  destruct H as (Hd & _ & _ & Hc). done.
Qed.

End MaterialsMore.

(** ** More on the equation section *)

Section EquationMore.

Variable eq : Equation.t.

(** X16: The method writes for all bodies or for none: it either returns
    after writing [Name] and [Angular Frequency] for every body, in
    order, or it raises the zero-frequency error with the sink as it
    was.  Over an empty list of bodies it returns, also for a harmonic
    equation with a zero frequency. *)
Theorem equation_all_or_nothing bodies s :
  (handleMagnetodynamic2DEquation bodies eq s =
     (Return tt,
      add_directives (flat_map (equation_directives eq) bodies) s)
   \/ (bodies <> []
       /\ Equation.IsHarmonic eq = true
       /\ (Units.Value (Equation.AngularFrequency eq) == 0)%Q
       /\ handleMagnetodynamic2DEquation bodies eq s =
          (Raise (WriteError msg_zero_angular_frequency), s)))
  /\ handleMagnetodynamic2DEquation [] eq s = (Return tt, s).
Proof.
  split; [|reflexivity].
  destruct (Equation.IsHarmonic eq
            && is_zero (Units.Value (Equation.AngularFrequency eq)))
    eqn:Hz.
  - apply andb_true_iff in Hz as [Hh Hf]. apply Qeq_bool_iff in Hf.
    destruct bodies as [|b bodies].
    + left. simpl. by rewrite add_directives_nil.
    + right. repeat split; [done..|]. by apply handleEquation_raises.
  - left. by apply handleEquation_emits.
Qed.

(** X17: For a harmonic equation the post-processing solver and the
    equation sections carry the same angular frequency: every
    [Angular Frequency] directive that the method adds has the value
    that [getMagnetodynamic2DSolverPost] puts under that key. *)
Theorem angular_frequency_consistent write bodies s ds d :
  Equation.IsHarmonic eq = true ->
  directives (handleMagnetodynamic2DEquation bodies eq s).2
  = directives s ++ ds ->
  d ∈ ds ->
  d_name d = "Angular Frequency" ->
  getMagnetodynamic2DSolverPost write eq !! "Angular Frequency"
  = Some (d_value d).
Proof.
  intros Hh Hds Hd Hname.
  assert (Hpost :
    getMagnetodynamic2DSolverPost write eq !! "Angular Frequency"
    = Some (ANum (Units.Value (Equation.AngularFrequency eq)))).
  { rewrite post_solver_as_updates, apply_updates_lookup.
    generalize (createNonlinearSolver write eq !! "Angular Frequency").
    intros d0. unfold post_solver_updates. rewrite Hh.
    destruct eq. vm_compute. reflexivity. }
  rewrite Hpost. f_equal.
  destruct (equation_all_or_nothing bodies s) as [[Hrun|(_&_&_&Hrun)] _];
    rewrite Hrun in Hds; simpl in Hds.
  - apply app_inv_head in Hds. subst ds.
    apply list_elem_of_In, in_flat_map in Hd as (b & _ & Hd).
    simpl in Hd. destruct Hd as [<-|[<-|[]]]; [discriminate|reflexivity].
  - rewrite <- (app_nil_r (directives s)) in Hds at 1.
    apply app_inv_head in Hds. subst ds. by apply not_elem_of_nil in Hd.
Qed.

End EquationMore.

(** ** Only the first reference counts *)

Section FirstReference.

Variable write : Writer.
Variable units : UnitsApi.
Variable float : string -> option Q.

(** X18: Of the references of an object the methods read the first entry
    only: two constraints, or two material objects, that agree on the
    first entry of [References] and on their other properties are
    treated alike, whatever further entries they have. *)
Theorem only_first_reference_used :
  (forall n bodies c c',
      ConstraintCurrentDensity.Name c = ConstraintCurrentDensity.Name c' ->
      ConstraintCurrentDensity.CurrentDensity c
      = ConstraintCurrentDensity.CurrentDensity c' ->
      head (ConstraintCurrentDensity.References c)
      = head (ConstraintCurrentDensity.References c') ->
      bodyForces_of_constraint write units n bodies c
      = bodyForces_of_constraint write units n bodies c')
  /\ (forall bodies obj obj',
      MaterialObject.Material obj = MaterialObject.Material obj' ->
      head (MaterialObject.References obj)
      = head (MaterialObject.References obj') ->
      material_of_object write float bodies obj
      = material_of_object write float bodies obj')
  /\ (forall obj obj',
      ConstraintElectrostaticPotential.Name obj
      = ConstraintElectrostaticPotential.Name obj' ->
      ConstraintElectrostaticPotential.Label obj
      = ConstraintElectrostaticPotential.Label obj' ->
      ConstraintElectrostaticPotential.PotentialEnabled obj
      = ConstraintElectrostaticPotential.PotentialEnabled obj' ->
      ConstraintElectrostaticPotential.Potential obj
      = ConstraintElectrostaticPotential.Potential obj' ->
      ConstraintElectrostaticPotential.ElectricInfinity obj
      = ConstraintElectrostaticPotential.ElectricInfinity obj' ->
      head (ConstraintElectrostaticPotential.References obj)
      = head (ConstraintElectrostaticPotential.References obj') ->
      bndConditions_of_constraint units obj
      = bndConditions_of_constraint units obj').
Proof.
  split; [|split].
  - intros n bodies [nm refs cd] [nm' refs' cd']. simpl.
    intros <- <- Hhd.
    unfold bodyForces_of_constraint, _outputMagnetodynamic2DBodyForce. simpl.
    destruct refs as [|[o names] rest], refs' as [|[o' names'] rest'];
      simpl in Hhd; try discriminate; [reflexivity|].
    by injection Hhd as <- <-.
  - intros bodies [nm m refs] [nm' m' refs']. simpl. intros <- Hhd.
    unfold material_of_object, material_refs. simpl.
    destruct refs as [|[o names] rest], refs' as [|[o' names'] rest'];
      simpl in Hhd; try discriminate; [reflexivity|].
    by injection Hhd as <- <-.
  - intros [nm lb refs en pot inf] [nm' lb' refs' en' pot' inf']. simpl.
    intros <- <- <- <- <- Hhd.
    unfold bndConditions_of_constraint, bndCondition_of_body. simpl.
    destruct refs as [|[o names] rest], refs' as [|[o' names'] rest'];
      simpl in Hhd; try discriminate; [reflexivity|].
    by injection Hhd as <- <-.
Qed.

End FirstReference.

(** ** More on boundary conditions *)

Section BoundaryMore.

Variable write : Writer.
Variable units : UnitsApi.

Local Abbreviation potentials :=
  (getMember_ConstraintElectrostaticPotential write).

Lemma boundary_marks_union x l :
  x ∈ ⋃ (map boundary_marks l) <->
  exists obj,
    obj ∈ l
    /\ ConstraintElectrostaticPotential.References obj <> []
    /\ ConstraintElectrostaticPotential.Name obj = x.
Proof.
  induction l as [|obj l IH]; simpl.
  - split; [set_solver|]. intros (obj & Hobj & _).
    by apply not_elem_of_nil in Hobj.
  - rewrite elem_of_union, IH. unfold boundary_marks. split.
    + intros [Hx|(obj' & Hobj' & H)].
      * exists obj. split; [by apply elem_of_cons; left|].
        destruct (ConstraintElectrostaticPotential.References obj);
          [set_solver|]. split; [done|set_solver].
      * exists obj'. split; [by apply elem_of_cons; right|done].
    + intros (obj' & Hobj' & Hr & Hn).
      apply elem_of_cons in Hobj' as [->|Hobj'].
      * left. destruct (ConstraintElectrostaticPotential.References obj);
          [done|set_solver].
      * right. by exists obj'.
Qed.

(** X19: The method marks exactly the potential constraints that have
    references, also those that write nothing, and it marks them even
    though it never looks at the bodies of the equation; it writes
    boundary directives only and prints nothing. *)
Theorem boundary_marks_exactly_referenced s :
  (forall x,
      x ∈ handledObjects
            (handleMagnetodynamic2DBndConditions write units s).2
      <-> x ∈ handledObjects s
          \/ exists obj,
              obj ∈ potentials
              /\ ConstraintElectrostaticPotential.References obj <> []
              /\ ConstraintElectrostaticPotential.Name obj = x)
  /\ (exists ds,
      directives (handleMagnetodynamic2DBndConditions write units s).2
      = directives s ++ ds
      /\ Forall (fun d => d_group d = GBoundary) ds)
  /\ console (handleMagnetodynamic2DBndConditions write units s).2
     = console s.
Proof.
  unfold handleMagnetodynamic2DBndConditions.
  rewrite (for_each_emits_marks _
             (boundary_directives_of_constraint units) boundary_marks)
    by (intros obj s0; apply bndConditions_of_constraint_spec).
  simpl. split; [|split; [|reflexivity]].
  - intros x. rewrite elem_of_union, boundary_marks_union. tauto.
  - eexists. split; [reflexivity|]. apply Forall_forall. intros d Hd.
    apply list_elem_of_In, in_flat_map in Hd as (obj & _ & Hd).
    unfold boundary_directives_of_constraint in Hd.
    destruct (ConstraintElectrostaticPotential.References obj)
      as [|[o names] rest]; [done|].
    apply in_flat_map in Hd as (name & _ & Hd).
    apply list_elem_of_In, boundary_directives_elem in Hd
      as [[_ ->]|[[_ (q & _ & ->)]|[_ ->]]]; reflexivity.
Qed.

End BoundaryMore.

(** ** Materials that can all be written *)

Lemma for_each_emits_in {A} (body : A -> M unit) (g : A -> list Directive)
    l :
  (forall x, x ∈ l -> forall s,
      body x s = (Return tt, add_directives (g x) s)) ->
  forall s,
    for_each l body s = (Return tt, add_directives (flat_map g l) s).
Proof.
  induction l as [|x l IH]; intros Hbody s; simpl.
  - by rewrite add_directives_nil.
  - rewrite (bind_Return _ _ _ _ _
               (Hbody x ltac:(by apply elem_of_cons; left) s)).
    rewrite IH by (intros y Hy; apply Hbody; by apply elem_of_cons; right).
    by rewrite add_directives_app.
Qed.

Section MaterialsWritten.

Variable write : Writer.
Variable float : string -> option Q.

(** X14: When every body has a material and every material dict that
    reaches a body of [bodies] can be written, the method returns
    after it has written, material object after material object and
    body after body in the order of the references, the directives of
    the material for the body; it marks and prints nothing. *)
Theorem materials_written bodies s :
  Forall (fun b => getBodyMaterial write b <> None) bodies ->
  (forall m name,
      (m, name) ∈ material_pairs write bodies ->
      is_writable_material float m) ->
  handleMagnetodynamic2DMaterial write float bodies s =
  (Return tt,
   add_directives
     (flat_map
        (fun p : gmap string string * string =>
           directives_of_material write float p.1 p.2)
        (material_pairs write bodies))
     s).
Proof.
  intros Hb Hw. rewrite handleMaterial_pairs by done.
  apply for_each_emits_in. intros [m name] Hin s0. simpl.
  destruct (Hw m name Hin)
    as ([n Hn] & [c Hc] & (p & Hp & [pv Hpv]) & He).
  unfold directives_of_material. rewrite Hn, Hc, Hp. simpl. rewrite Hpv.
  apply (material_of_body_emits write float m name s0 n c p pv); try done.
  - intros x Hx. rewrite Hx. reflexivity.
  - by intros ->.
  - intros Hsome. destruct (m !! "RelativePermittivity") as [e|] eqn:E;
      [|done]. simpl. destruct (He e eq_refl) as [ev ->]. done.
Qed.

End MaterialsWritten.

(** ** Instances of the further properties *)

Lemma bodies_only_for_broadcast_witness :
  handleMagnetodynamic2DBodyForces
    (Sample.writer true []
       [ Sample.currentDensity "J1" [("Box", ["A"; "B"])] 5;
         Sample.currentDensity "J2" [("Box", ["C"])] 7 ] [])
    Sample.units ["A"] Sample.sink
  = handleMagnetodynamic2DBodyForces
      (Sample.writer true []
         [ Sample.currentDensity "J1" [("Box", ["A"; "B"])] 5;
           Sample.currentDensity "J2" [("Box", ["C"])] 7 ] [])
      Sample.units [] Sample.sink.
Proof.
  apply bodies_only_for_broadcast. left. discriminate.
Defined.

Lemma referenced_constraints_written_witness :
  handleMagnetodynamic2DBodyForces
    (Sample.writer true []
       [ Sample.currentDensity "J1" [("Box", ["A"; "B"])] 5;
         Sample.currentDensity "J2" [("Box", ["D"])] 7 ] [])
    Sample.units ["A"] Sample.sink
  = (Return tt,
     mkSink
       [ bodyForce_directive 5 "A"; bodyForce_directive 5 "B";
         bodyForce_directive 7 "D" ]
       {["J1"; "J2"]} []).
Proof.
  rewrite referenced_constraints_written.
  - vm_compute. reflexivity.
  - discriminate.
  - intros c Hc. apply list_elem_of_In in Hc. simpl in Hc.
    destruct Hc as [<-|[<-|[]]]; split; try discriminate;
      vm_compute; discriminate.
Defined.

Lemma zero_source_stops_witness :
  handleMagnetodynamic2DBodyForces
    (Sample.writer true []
       [ Sample.currentDensity "J1" [("Box", ["A"])] 5;
         Sample.currentDensity "J0" [("Box", ["B"])] 0;
         Sample.currentDensity "J2" [("Box", ["C"])] 7 ] [])
    Sample.units ["A"; "B"; "C"] Sample.sink
  = (Raise (WriteError msg_zero_current_density),
     mkSink [bodyForce_directive 5 "A"] {["J1"]} []).
Proof.
  rewrite (zero_source_stops
             (Sample.writer true []
                [ Sample.currentDensity "J1" [("Box", ["A"])] 5;
                  Sample.currentDensity "J0" [("Box", ["B"])] 0;
                  Sample.currentDensity "J2" [("Box", ["C"])] 7 ] [])
             Sample.units
             [Sample.currentDensity "J1" [("Box", ["A"])] 5]
             (Sample.currentDensity "J0" [("Box", ["B"])] 0)
             [Sample.currentDensity "J2" [("Box", ["C"])] 7]
             "Box" "B" [] []);
    reflexivity.
Defined.

Lemma no_body_no_zero_check_witness :
  handleMagnetodynamic2DBodyForces
    (Sample.writer true [] [Sample.currentDensity "J0" [] 0] [])
    Sample.units [] Sample.sink
  = (Return tt, add_handled {["J0"]} Sample.sink)
  /\ bodyForces_of_constraint
       (Sample.writer true [] [] []) Sample.units 2 ["A"]
       (Sample.currentDensity "J0" [("Box", [])] 0) Sample.sink
     = (Return tt, add_handled {["J0"]} Sample.sink).
Proof.
  split.
  - apply (proj1 (no_body_no_zero_check
                    (Sample.writer true []
                       [Sample.currentDensity "J0" [] 0] [])
                    Sample.units)
             (Sample.currentDensity "J0" [] 0));
      reflexivity.
  - apply (proj2 (no_body_no_zero_check (Sample.writer true [] [] [])
                    Sample.units)
             2%nat ["A"] (Sample.currentDensity "J0" [("Box", [])] 0)
             "Box" []).
    reflexivity.
Defined.

Lemma primary_solver_section_witness :
  getMagnetodynamic2DSolver (Sample.writer true [] [] [])
    (Sample.equation true 50 true false) !! "Linear System Solver"
  = createNonlinearSolver (Sample.writer true [] [] [])
      (Sample.equation true 50 true false) !! "Linear System Solver".
Proof.
  apply (primary_solver_section (Sample.writer true [] [] [])
           (Sample.equation true 50 true false)).
  unfold primary_solver_keys. rewrite !not_elem_of_cons.
  repeat split; try discriminate. apply not_elem_of_nil.
Defined.

Lemma post_solver_section_witness :
  getMagnetodynamic2DSolverPost (Sample.writer true [] [] [])
    (Sample.equation true 50 true false) !! "Linear System Solver"
  = createNonlinearSolver (Sample.writer true [] [] [])
      (Sample.equation true 50 true false) !! "Linear System Solver".
Proof.
  apply (post_solver_section (Sample.writer true [] [] [])
           (Sample.equation true 50 true false)).
  unfold post_solver_keys. rewrite !not_elem_of_cons.
  repeat split; try discriminate. apply not_elem_of_nil.
Defined.

Lemma constants_written_witness :
  exists p e,
    handleMagnetodynamic2DConstants Sample.writer_of_constants Sample.sink
    = (Return tt,
       add_directives
         [ mkDirective GConstant None "Permeability Of Vacuum" (ANum p);
           mkDirective GConstant None "Permittivity Of Vacuum" (ANum e) ]
         Sample.sink)
    /\ p = round (convert Sample.writer_of_constants
                    "1.25663706212e-6 kg*m/(s^2*A^2)" "M*L/(T^2*I^2)") 20
    /\ e = round (convert Sample.writer_of_constants
                    "8.8541878128e-12 s^4*A^2/(m^3*kg)" "T^4*I^2/(L^3*M)")
             20
    /\ (convert Sample.writer_of_constants
          "1.25663706212e-6 kg*m/(s^2*A^2)" "M*L/(T^2*I^2)"
        - (1 # 200000000000000000000) <= p
        /\ p <= convert Sample.writer_of_constants
                  "1.25663706212e-6 kg*m/(s^2*A^2)" "M*L/(T^2*I^2)"
                + (1 # 200000000000000000000))%Q
    /\ (convert Sample.writer_of_constants
          "8.8541878128e-12 s^4*A^2/(m^3*kg)" "T^4*I^2/(L^3*M)"
        - (1 # 200000000000000000000) <= e
        /\ e <= convert Sample.writer_of_constants
                  "8.8541878128e-12 s^4*A^2/(m^3*kg)" "T^4*I^2/(L^3*M)"
                + (1 # 200000000000000000000))%Q.
Proof.
  apply (constants_written Sample.writer_of_constants); reflexivity.
Defined.

Lemma constants_missing_witness :
  handleMagnetodynamic2DConstants (Sample.writer true [] [] []) Sample.sink
  = (Raise (KeyError "PermeabilityOfVacuum"), Sample.sink).
Proof.
  apply (proj1 (constants_missing (Sample.writer true [] [] [])
                  Sample.sink)).
  reflexivity.
Defined.

Lemma materials_out_of_reach_witness :
  handleMagnetodynamic2DMaterial
    (Sample.writer true
       [ Sample.materialObject "Mat"
           (delete "ElectricalConductivity" Sample.copper)
           [("Box", ["A"; "B"])] ] [] [])
    Sample.float ["C"] Sample.sink
  = (Return tt, Sample.sink).
Proof.
  apply materials_out_of_reach.
  - repeat constructor. discriminate.
  - intros obj n Hobj Hn Hc.
    apply list_elem_of_In in Hobj. simpl in Hobj.
    destruct Hobj as [<-|[]].
    apply list_elem_of_In in Hn. apply list_elem_of_In in Hc.
    simpl in Hn, Hc. destruct Hc as [<-|[]].
    destruct Hn as [Hn|[Hn|[]]]; discriminate.
Defined.

Lemma material_malformed_witness :
  material_of_body (Sample.writer true [] [] []) Sample.float
    (delete "Name" Sample.copper) "A" Sample.sink
  = (Raise (KeyError "Name"), Sample.sink)
  /\ material_of_body (Sample.writer true [] [] []) Sample.float
       (<["RelativePermeability" := "high"]> Sample.copper) "A" Sample.sink
     = (Raise (ValueError "high"),
        add_directives
          [ mkDirective GMaterial (Some "A") "Name" (AStr "Copper");
            mkDirective GMaterial (Some "A") "Electric Conductivity"
              (ANum (round (5959 # 100) 10)) ]
          Sample.sink).
Proof.
  split.
  - destruct (material_malformed (Sample.writer true [] [] [])
                Sample.float (delete "Name" Sample.copper) "A"
                Sample.sink "59.59 MS/m" "1") as (H & _);
      [reflexivity..|].
    apply H. reflexivity.
  - destruct (material_malformed (Sample.writer true [] [] [])
                Sample.float
                (<["RelativePermeability" := "high"]> Sample.copper)
                "A" Sample.sink "59.59 MS/m" "high") as (_ & H & _);
      [reflexivity..|].
    apply (H "Copper"); reflexivity.
Defined.

Lemma materials_written_witness :
  handleMagnetodynamic2DMaterial
    (Sample.writer true
       [ Sample.materialObject "Mat1" Sample.copper [("Box", ["B"; "A"])];
         Sample.materialObject "Mat2" Sample.air [] ] [] [])
    Sample.float ["A"; "C"] Sample.sink
  = (Return tt,
     add_directives
       (flat_map
          (fun p : gmap string string * string =>
             directives_of_material
               (Sample.writer true
                  [ Sample.materialObject "Mat1" Sample.copper
                      [("Box", ["B"; "A"])];
                    Sample.materialObject "Mat2" Sample.air [] ] [] [])
               Sample.float p.1 p.2)
          [ (Sample.copper, "A"); (Sample.air, "A"); (Sample.air, "C") ])
       Sample.sink).
Proof.
  apply (materials_written
           (Sample.writer true
              [ Sample.materialObject "Mat1" Sample.copper
                  [("Box", ["B"; "A"])];
                Sample.materialObject "Mat2" Sample.air [] ] [] [])
           Sample.float ["A"; "C"] Sample.sink).
  - repeat constructor; discriminate.
  - intros m name Hin.
    apply material_pairs_elem in Hin as (obj & Hobj & -> & _).
    apply list_elem_of_In in Hobj. simpl in Hobj.
    destruct Hobj as [<-|[<-|[]]].
    + split; [by eexists|]. split; [by eexists|]. split.
      * exists "1". split; [reflexivity|by eexists].
      * intros e He. discriminate He.
    + split; [by eexists|]. split; [by eexists|]. split.
      * exists "1". split; [reflexivity|by eexists].
      * intros e He. injection He as <-. by eexists.
Defined.

Lemma angular_frequency_consistent_witness :
  getMagnetodynamic2DSolverPost (Sample.writer true [] [] [])
    (Sample.equation true 50 true false) !! "Angular Frequency"
  = Some (ANum 50).
Proof.
  apply (angular_frequency_consistent (Sample.equation true 50 true false)
           (Sample.writer true [] [] []) ["A"] Sample.sink
           (equation_directives (Sample.equation true 50 true false) "A")
           (mkDirective GEquation (Some "A") "Angular Frequency" (ANum 50)));
    try reflexivity.
  apply list_elem_of_In. simpl. tauto.
Defined.

Lemma only_first_reference_used_witness :
  bodyForces_of_constraint (Sample.writer true [] [] []) Sample.units 2
    ["A"; "B"; "C"] (Sample.currentDensity "J" [("Box", ["A"])] 5)
  = bodyForces_of_constraint (Sample.writer true [] [] []) Sample.units 2
      ["A"; "B"; "C"]
      (Sample.currentDensity "J" [("Box", ["A"]); ("Cylinder", ["B"])] 5).
Proof.
  apply (proj1 (only_first_reference_used (Sample.writer true [] [] [])
                  Sample.units Sample.float));
    reflexivity.
Defined.

(** The second reference of a constraint gets no body force. *)
Example second_reference_ignored :
  handleMagnetodynamic2DBodyForces
    (Sample.writer true []
       [Sample.currentDensity "J" [("Box", ["A"]); ("Cylinder", ["B"])] 5]
       [])
    Sample.units ["A"; "B"; "C"] Sample.sink
  = (Return tt, mkSink [bodyForce_directive 5 "A"] {["J"]} []).
Proof. vm_compute. reflexivity. Qed.
